(** * Wordle TUI: the guess grid, the scoring of a guess and the game state

    A shallow embedding of [wordle_app.py]: the [Letter] cells, the
    [GuessView] grid with its cursor, the duplicate-aware scoring of
    [GuessView.check_solution], the keyboard aggregation and statistics of
    [WordleApp], its button dispatch, and the replay of a stored day in
    [WordleApp.init_game] and [WordleApp.on_mount].

    Conventions.  Python strings are [string] (characters are ASCII codes);
    the truth value of a string is "non-empty".  A Python exception
    (IndexError, KeyError, TypeError, AttributeError, ValueError) is the
    result [None] of the option monad.  Rendering, layout, timers and the
    clipboard are left out. *)

From Stdlib Require Import ZArith Ascii String List Lia ZifyNat.
From stdpp Require Import base option list gmap strings fin_maps pretty.

Local Open Scope string_scope.
Local Open Scope nat_scope.

(** ** Python values *)

Module Py.

(** [bool(s)] for a string. *)
Definition truthy (s : string) : bool := bool_decide (s ≠ "").

(** [list(s)]: the one-character strings of [s]. *)
Fixpoint chars (s : string) : list string :=
  match s with
  | EmptyString => []
  | String c r => String c EmptyString :: chars r
  end.

(** ["".join(l)]. *)
Fixpoint join (l : list string) : string :=
  match l with
  | [] => ""
  | x :: r => x +:+ join r
  end.

(** [l[i]] for a Python integer [i]: negative indices count from the end,
    anything else out of range raises IndexError. *)
Definition index {A} (l : list A) (i : Z) : option nat :=
  let n := Z.of_nat (length l) in
  if decide (0 ≤ i < n)%Z then Some (Z.to_nat i)
  else if decide (- n ≤ i < 0)%Z then Some (Z.to_nat (n + i))
  else None.

Definition getitem {A} (l : list A) (i : Z) : option A :=
  n ← index l i; l !! n.

(** [c.upper()] and [c.lower()] on ASCII. *)
Definition upper_char (c : ascii) : ascii :=
  let n := nat_of_ascii c in
  if bool_decide (97 ≤ n ≤ 122)%nat then ascii_of_nat (n - 32) else c.

Definition lower_char (c : ascii) : ascii :=
  let n := nat_of_ascii c in
  if bool_decide (65 ≤ n ≤ 90)%nat then ascii_of_nat (n + 32) else c.

Fixpoint upper (s : string) : string :=
  match s with
  | EmptyString => EmptyString
  | String c r => String (upper_char c) (upper r)
  end.

Fixpoint lower (s : string) : string :=
  match s with
  | EmptyString => EmptyString
  | String c r => String (lower_char c) (lower r)
  end.

(** [int(s)] for a one-character string [s], as [zip] hands them out: a
    decimal digit gives its value, any other character raises ValueError.
    (Longer strings never reach it and are not modelled.) *)
Definition int_digit (s : string) : option Z :=
  match s with
  | String c EmptyString =>
      let n := nat_of_ascii c in
      if bool_decide (48 ≤ n ≤ 57)%nat then Some (Z.of_nat (n - 48)) else None
  | _ => None
  end.

(** [str(x)] for [x : int | None]. *)
Definition str_status (s : option Z) : string :=
  match s with
  | None => "None"
  | Some z => pretty z
  end.

(** [collections.Counter]: a missing key reads as 0. *)
Definition Counter_get (c : gmap string Z) (k : string) : Z :=
  default 0%Z (c !! k).

(** [c[k] -= 1]. *)
Definition Counter_dec (c : gmap string Z) (k : string) : gmap string Z :=
  <[k := (Counter_get c k - 1)%Z]> c.

(** [Counter(iterable)]. *)
Definition Counter (l : list string) : gmap string Z :=
  foldl (λ c k, <[k := (Counter_get c k + 1)%Z]> c) ∅ l.

(** [itertools.takewhile]. *)
Fixpoint takewhile {A} (p : A → bool) (l : list A) : list A :=
  match l with
  | [] => []
  | x :: r => if p x then x :: takewhile p r else []
  end.

End Py.

(** ** Constants *)

Definition ABSENT : Z := 0.
Definition PRESENT : Z := 1.
Definition CORRECT : Z := 2.

Definition COLUMN_SIZE : nat := 5.
Definition ROW_SIZE : nat := 6.

(** [partition(l, size)]: successive [islice]s of [size] items, up to the
    first empty one.  The fuel is the length of the input, which bounds the
    number of non-empty slices. *)
Fixpoint partition_fuel {A} (fuel : nat) (l : list A) (size : nat)
  : list (list A) :=
  match fuel with
  | O => []
  | S f =>
      match take size l with
      | [] => []
      | chunk => chunk :: partition_fuel f (drop size l) size
      end
  end.

Definition partition {A} (l : list A) (size : nat) : list (list A) :=
  partition_fuel (length l) l size.

(** ** [Letter] *)

Record Letter := mkLetter {
  name : string;
  label : string;
  status : option Z
}.

(** [Letter("")], the content of a fresh grid cell, and [Letter(k, True)],
    a keyboard button. *)
Definition Letter_new (n : string) : Letter :=
  {| name := n; label := n; status := None |}.

Definition set_status (s : Z) (b : Letter) : Letter :=
  {| name := name b; label := label b; status := Some s |}.

(** [b.name = b.label = s]. *)
Definition set_name (s : string) (b : Letter) : Letter :=
  {| name := s; label := s; status := status b |}.

(** ** [GuessView] *)

(** [current] is only assigned by [on_mount]; before that the attribute does
    not exist. *)
Record GuessView := mkGuessView {
  slots : list Letter;
  current : option nat
}.

Definition GuessView_new : GuessView :=
  {| slots := replicate (COLUMN_SIZE * ROW_SIZE) (Letter_new "");
     current := None |}.

Definition GuessView_on_mount (g : GuessView) : GuessView :=
  {| slots := slots g; current := Some 0 |}.

(** The first index of the row holding the cursor. *)
Definition row_start (c : nat) : nat := c / COLUMN_SIZE * COLUMN_SIZE.

(** [self.slots[start : start + COLUMN_SIZE]]. *)
Definition row_at {A} (start : nat) (l : list A) : list A :=
  take COLUMN_SIZE (drop start l).

Definition current_guess (g : GuessView) : option (list Letter) :=
  c ← current g; Some (row_at (row_start c) (slots g)).

Definition current_word (g : GuessView) : option (list string) :=
  letters ← current_guess g; Some (fmap (M:=list) name letters).

Definition valid_guesses (g : GuessView) : list (list Letter) :=
  partition (Py.takewhile (λ x, Py.truthy (name x)) (slots g)) COLUMN_SIZE.

(** The cells of a row are shared with [slots]: writing the statuses of the
    row back at [start] is what the mutation of the [Letter] objects does. *)
Definition put_row {A} (start : nat) (row : list A) (l : list A) : list A :=
  take start l ++ row ++ drop (start + length row) l.

Definition input_letter (letter : string) (g : GuessView) : option GuessView :=
  c ← current g;
  button ← slots g !! c;
  if Py.truthy (name button) then
    if bool_decide (c mod COLUMN_SIZE = COLUMN_SIZE - 1) then Some g
    else
      button' ← slots g !! (c + 1);
      Some {| slots := <[c + 1 := set_name letter button']> (slots g);
              current := Some (c + 1) |}
  else
    Some {| slots := <[c := set_name letter button]> (slots g);
            current := Some c |}.

Definition backspace_letter (g : GuessView) : option GuessView :=
  c ← current g;
  button ← slots g !! c;
  if negb (Py.truthy (name button)) then
    if bool_decide (c mod COLUMN_SIZE = 0) then Some g
    else
      button' ← slots g !! (c - 1);
      Some {| slots := <[c - 1 := set_name "" button']> (slots g);
              current := Some (c - 1) |}
  else
    Some {| slots := <[c := set_name "" button]> (slots g);
            current := Some c |}.

(** First loop of [check_solution]: exact matches take from the counter. *)
Fixpoint pass1 (solution : list string) (i : nat) (letters : list Letter)
    (counter : gmap string Z) : option (list Letter * gmap string Z) :=
  match letters with
  | [] => Some ([], counter)
  | b :: bs =>
      s ← solution !! i;
      if decide (s = name b) then
        '(bs', counter') ← pass1 solution (S i) bs (Py.Counter_dec counter (name b));
        Some (set_status CORRECT b :: bs', counter')
      else
        '(bs', counter') ← pass1 solution (S i) bs counter;
        Some (b :: bs', counter')
  end.

(** Second loop: the cells that are not CORRECT take what the counter has
    left, from left to right. *)
Fixpoint pass2 (letters : list Letter) (counter : gmap string Z)
  : list Letter :=
  match letters with
  | [] => []
  | b :: bs =>
      if decide (status b = Some CORRECT) then b :: pass2 bs counter
      else if bool_decide (Py.Counter_get counter (name b) ≤ 0)%Z then
        set_status ABSENT b :: pass2 bs counter
      else
        set_status PRESENT b :: pass2 bs (Py.Counter_dec counter (name b))
  end.

(** The two loops on the cells of one row. *)
Definition score_letters (solution : string) (letters : list Letter)
  : option (list Letter) :=
  '(letters', counter) ← pass1 (Py.chars solution) 0 letters
                               (Py.Counter (Py.chars solution));
  Some (pass2 letters' counter).

(** [check_solution] returns [True], [False] or nothing ([None]). *)
Definition check_solution (solution : string) (g : GuessView)
  : option (option bool * GuessView) :=
  c ← current g;
  let start := row_start c in
  let letters := row_at start (slots g) in
  if decide (Py.chars solution = name <$> letters) then
    Some (Some true,
          {| slots := put_row start (set_status CORRECT <$> letters) (slots g);
             current := Some c |})
  else
    letters' ← score_letters solution letters;
    let slots' := put_row start letters' (slots g) in
    if bool_decide (c < COLUMN_SIZE * ROW_SIZE - 1) then
      Some (None, {| slots := slots'; current := Some (c + 1) |})
    else
      Some (Some false, {| slots := slots'; current := Some c |}).

(** The cells of a row into which [w] was typed, not yet scored, and the
    statuses that the two loops give them. *)
Definition typed_row (w : string) : list Letter :=
  Letter_new <$> Py.chars w.

Definition score (solution guess : string) : option (list (option Z)) :=
  fmap (M:=list) status <$> score_letters solution (typed_row guess).

(** ** The statistics dictionary

    [self.stats]: the keys "played" and "stats" are always there, the three
    others only once a day was saved (or, for "last_result", reset). *)

Module Stats.

Record t := mk {
  played : Z;
  stats : list Z;
  last_played : option Z;
  last_guesses : option (string * string);
  last_result : option (option bool)
}.

End Stats.

Definition INITIAL_STATS : Stats.t :=
  {| Stats.played := 0; Stats.stats := [0; 0; 0; 0; 0; 0]%Z;
     Stats.last_played := None; Stats.last_guesses := None;
     Stats.last_result := None |}.

(** ** [WordleApp] *)

Definition KEYBOARD : list string := ["QWERTYUIOP"; "ASDFGHJKL"; "ZXCVBNM"].

(** [message] is [self.message.content]; [stats_json] is the content of the
    statistics file, [None] while the file does not exist. *)
Record WordleApp := mkWordleApp {
  index : Z;
  solution : string;
  stats : Stats.t;
  result : option bool;
  buttons : gmap string Letter;
  message : string;
  guess : GuessView;
  stats_json : option Stats.t
}.

Definition set_message (m : string) (app : WordleApp) : WordleApp :=
  {| index := index app; solution := solution app; stats := stats app;
     result := result app; buttons := buttons app; message := m;
     guess := guess app; stats_json := stats_json app |}.

Definition set_guess (g : GuessView) (app : WordleApp) : WordleApp :=
  {| index := index app; solution := solution app; stats := stats app;
     result := result app; buttons := buttons app; message := message app;
     guess := g; stats_json := stats_json app |}.

(** [{name: Letter(name, True) for row in KEYBOARD for name in row}]. *)
Definition buttons_new : gmap string Letter :=
  list_to_map ((λ k, (k, Letter_new k)) <$> concat (Py.chars <$> KEYBOARD)).

Definition newline : string := String (ascii_of_nat 10) EmptyString.

Definition show_result (app : WordleApp) : WordleApp :=
  let content :=
    if result app is Some true then "You Win!"
    else "You Lose! The answer is:" +:+ newline +:+ solution app in
  set_message (content +:+ newline +:+ "Press 'c' to copy the result.") app.

(** [button.status = max(button.status or 0, s)]. *)
Definition raise_status (s : Z) (button : Letter) : Letter :=
  set_status (Z.max (default 0%Z (status button)) s) button.

(** The keyboard loop of [check_input], over the cells of the scored row. *)
Fixpoint update_buttons (row : list Letter) (bs : gmap string Letter)
  : option (gmap string Letter) :=
  match row with
  | [] => Some bs
  | l :: ls =>
      button ← bs !! name l;
      s ← status l;
      update_buttons ls (<[name l := raise_status s button]> bs)
  end.

(** [trials] of [copy_result]: the number of rows, [None] for the "x" of a
    lost game. *)
Definition copy_result_trials (app : WordleApp) : option nat :=
  if result app is Some true then Some (length (valid_guesses (guess app)))
  else None.

Definition save_statistics (app : WordleApp) : option WordleApp :=
  let guesses := valid_guesses (guess app) in
  let played1 := (Stats.played (stats app) + 1)%Z in
  stats1 ←
    (if result app is Some true then
       i ← Py.index (Stats.stats (stats app)) (Z.of_nat (length guesses) - 1);
       x ← Stats.stats (stats app) !! i;
       Some (<[i := (x + 1)%Z]> (Stats.stats (stats app)))
     else Some (Stats.stats (stats app)));
  let cells := concat guesses in
  let data :=
    {| Stats.last_played := Some (index app);
       Stats.last_guesses :=
         Some (Py.join (Py.chars (Py.join (name <$> cells))),
               Py.join (Py.chars (Py.join (Py.str_status ∘ status <$> cells))));
       Stats.last_result := Some (result app);
       Stats.played := (played1 + 1)%Z;
       Stats.stats := stats1 |} in
  Some {| index := index app; solution := solution app; stats := data;
          result := result app; buttons := buttons app;
          message := message app; guess := guess app;
          stats_json := Some data |}.

(** The loop of [init_game] over [zip(letters, statuses)]. *)
Fixpoint replay (i : nat) (pairs : list (string * string))
    (sl : list Letter) (bs : gmap string Letter)
  : option (list Letter * gmap string Letter) :=
  match pairs with
  | [] => Some (sl, bs)
  | (letter, st) :: rest =>
      cell ← sl !! i;
      s ← Py.int_digit st;
      button ← bs !! letter;
      replay (S i) rest
        (<[i := set_status s (set_name letter cell)]> sl)
        (<[letter := raise_status s button]> bs)
  end.

Definition init_game (app : WordleApp) : option WordleApp :=
  if bool_decide (default (-1) (Stats.last_played (stats app)) < index app)%Z
  then
    Some {| index := index app; solution := solution app;
            stats := {| Stats.played := Stats.played (stats app);
                        Stats.stats := Stats.stats (stats app);
                        Stats.last_played := Stats.last_played (stats app);
                        Stats.last_guesses := Stats.last_guesses (stats app);
                        Stats.last_result := Some None |};
            result := result app; buttons := buttons app;
            message := message app; guess := guess app;
            stats_json := stats_json app |}
  else
    '(letters, statuses) ← Stats.last_guesses (stats app);
    '(slots', buttons') ←
      replay 0 (zip (Py.chars letters) (Py.chars statuses))
             (slots (guess app)) (buttons app);
    r ← Stats.last_result (stats app);
    Some (show_result
            {| index := index app; solution := solution app;
               stats := stats app; result := r; buttons := buttons';
               message := message app;
               guess := {| slots := slots'; current := current (guess app) |};
               stats_json := stats_json app |}).

Section WordLists.

(** The two word lists of the data files [La.gz] (the solutions, by day) and
    [Ta.gz] (the other accepted guesses). *)
Variables La Ta : list string.

Definition check_input (app : WordleApp) : option WordleApp :=
  c ← current (guess app);
  word ← current_word (guess app);
  let current_word := Py.lower (Py.join word) in
  if bool_decide ("" ∈ word) then Some (set_message "Not enough letters" app)
  else if bool_decide (current_word ∉ Ta) && bool_decide (current_word ∉ La)
  then Some (set_message "Not in word list" app)
  else
    '(r, g') ← check_solution (solution app) (guess app);
    (* [current] was taken before the call: the same cells, now scored *)
    let current := row_at (row_start c) (slots g') in
    buttons' ← update_buttons current (buttons app);
    let app' :=
      {| index := index app; solution := solution app; stats := stats app;
         result := r; buttons := buttons'; message := message app;
         guess := g'; stats_json := stats_json app |} in
    if r is Some _ then save_statistics (show_result app') else Some app'.

Definition handle_button_pressed (sender : string) (app : WordleApp)
  : option WordleApp :=
  if result app is Some _ then Some app
  else
    let app := set_message "" app in
    if decide (sender = "enter") then check_input app
    else if decide (sender = "backspace") then
      g ← backspace_letter (guess app); Some (set_guess g app)
    else
      g ← input_letter sender (guess app); Some (set_guess g app).

(** [WordleApp.on_mount] up to the docking of the grid, which mounts it.
    [today] is the result of [get_index], [file] the content of the
    statistics file if there is one. *)
Definition on_mount (today : Z) (file : option Stats.t) : option WordleApp :=
  w ← Py.getitem La today;
  app ← init_game
    {| index := today; solution := Py.upper w;
       stats := default INITIAL_STATS file; result := None;
       buttons := buttons_new; message := ""; guess := GuessView_new;
       stats_json := file |};
  Some (set_guess (GuessView_on_mount (guess app)) app).

End WordLists.

(** ** Sequences of editing operations *)

Inductive GridOp :=
| Input (letter : string)
| Backspace.

Definition run_op (op : GridOp) (g : GuessView) : option GuessView :=
  match op with
  | Input letter => input_letter letter g
  | Backspace => backspace_letter g
  end.

Fixpoint run_ops (ops : list GridOp) (g : GuessView) : option GuessView :=
  match ops with
  | [] => Some g
  | op :: rest => g' ← run_op op g; run_ops rest g'
  end.

(** The mounted, empty grid of a fresh day. *)
Definition empty_grid : GuessView := GuessView_on_mount GuessView_new.

(** Typing a word, one key per character. *)
Definition type_word (w : string) (g : GuessView) : option GuessView :=
  run_ops (Input <$> Py.chars w) g.

(** ** Positions in a row *)

Fixpoint first_empty (row : list Letter) : option nat :=
  match row with
  | [] => None
  | b :: r => if Py.truthy (name b) then S <$> first_empty r else Some 0
  end.

Fixpoint last_filled (row : list Letter) : option nat :=
  match row with
  | [] => None
  | b :: r =>
      match last_filled r with
      | Some i => Some (S i)
      | None => if Py.truthy (name b) then Some 0 else None
      end
  end.

(** The cursor rule as the specification words it: on the first empty cell
    of the current row, or on the last filled cell when the row is full. *)
Definition cursor_first_empty_or_full (g : GuessView) : bool :=
  match current g with
  | None => false
  | Some c =>
      let row := row_at (row_start c) (slots g) in
      match first_empty row with
      | Some i => bool_decide (c mod COLUMN_SIZE = i)
      | None => bool_decide (last_filled row = Some (c mod COLUMN_SIZE))
      end
  end.

(** The cursor rule of the code: on the last filled cell of the current row,
    or on its first empty cell. *)
Definition cursor_last_filled_or_first_empty (g : GuessView) : bool :=
  match current g with
  | None => false
  | Some c =>
      let row := row_at (row_start c) (slots g) in
      bool_decide (last_filled row = Some (c mod COLUMN_SIZE)) ||
      bool_decide (first_empty row = Some (c mod COLUMN_SIZE))
  end.

(** The shape of the current row that the editing operations keep: the
    cursor is inside the grid, the cells of its row before it are filled and
    the cells of its row after it are empty. *)
Definition row_shape (g : GuessView) : Prop :=
  ∃ c, current g = Some c ∧ c < length (slots g) ∧
    length (slots g) = COLUMN_SIZE * ROW_SIZE ∧
    (∀ i b, row_start c ≤ i < c → slots g !! i = Some b → name b ≠ "") ∧
    (∀ i b, c < i < row_start c + COLUMN_SIZE →
            slots g !! i = Some b → name b = "").

(** ** Counting letters and marks *)

(** How often [k] occurs in a word. *)
Fixpoint multiplicity (k : string) (l : list string) : nat :=
  match l with
  | [] => 0
  | x :: r => (if bool_decide (x = k) then 1 else 0) + multiplicity k r
  end.

(** How many cells hold [k] with the status [s]. *)
Fixpoint count_marked (s : Z) (k : string) (letters : list Letter) : nat :=
  match letters with
  | [] => 0
  | b :: r =>
      (if bool_decide (name b = k ∧ status b = Some s) then 1 else 0)
      + count_marked s k r
  end.

(** How many cells hold [k] without being CORRECT. *)
Fixpoint count_open (k : string) (letters : list Letter) : nat :=
  match letters with
  | [] => 0
  | b :: r =>
      (if bool_decide (name b = k ∧ status b ≠ Some CORRECT) then 1 else 0)
      + count_open k r
  end.

(** How many positions hold [k] both in the solution and in the guess. *)
Fixpoint exact_matches (k : string) (sol : list string)
    (letters : list Letter) : nat :=
  match sol, letters with
  | x :: ss, b :: bs =>
      (if bool_decide (x = name b ∧ name b = k) then 1 else 0)
      + exact_matches k ss bs
  | _, _ => 0
  end.

(** What a scored row [row] owes to the guess [guess] and the solution
    [sol]: the letters are those of the guess; a cell is CORRECT exactly
    where the guess has the letter of the solution; of no letter are there
    more CORRECT and PRESENT cells than the solution has occurrences; and
    the PRESENT cells of a letter are as many as its occurrences left in
    the guess, up to what the solution has left, once the exact matches are
    taken from both. *)
Definition scoring_law (sol : list string) (guess row : list Letter) : Prop :=
  name <$> row = name <$> guess ∧
  (∀ i b, row !! i = Some b →
          status b = Some CORRECT ↔ sol !! i = Some (name b)) ∧
  (∀ k, count_marked CORRECT k row + count_marked PRESENT k row
        ≤ multiplicity k sol) ∧
  (∀ k, count_marked PRESENT k row
        = min (multiplicity k (name <$> guess) - count_marked CORRECT k row)
              (multiplicity k sol - count_marked CORRECT k row)).

(** The grid after [w] (one to five letters) is typed into the first row:
    the cursor is on the last letter. *)
Definition typed_grid (w : string) : GuessView :=
  {| slots := typed_row w
              ++ replicate (COLUMN_SIZE * ROW_SIZE - String.length w)
                   (Letter_new "");
     current := Some (String.length w - 1) |}.

(** The words of the two lists are made of the lowercase letters a to z. *)
Definition is_lower (c : ascii) : bool :=
  bool_decide (97 ≤ nat_of_ascii c ≤ 122).

Fixpoint lowercase (w : string) : bool :=
  match w with
  | EmptyString => true
  | String c r => is_lower c && lowercase r
  end.

(** The application on day 0 with the solution ALLOW, nothing played before,
    and [w] typed into the first row. *)
Definition typed_app (w : string) : WordleApp :=
  {| index := 0; solution := "ALLOW"; stats := INITIAL_STATS;
     result := None; buttons := buttons_new; message := "";
     guess := typed_grid w; stats_json := None |}.

(** The order of the keyboard states: unset below ABSENT below PRESENT
    below CORRECT. *)
Definition rank (s : option Z) : Z :=
  match s with
  | None => -1
  | Some z => z
  end.

(** The best state that a scored row shows for the letter [k]; unset when
    the row does not hold [k]. *)
Fixpoint observed_rank (k : string) (row : list Letter) : Z :=
  match row with
  | [] => -1
  | l :: r =>
      if decide (name l = k) then Z.max (rank (status l)) (observed_rank k r)
      else observed_rank k r
  end.

(** A cell that was scored carries one of the three marks. *)
Definition marked (l : Letter) : Prop :=
  status l = Some ABSENT ∨ status l = Some PRESENT ∨ status l = Some CORRECT.

(** The cell that [init_game] makes of a stored letter and status digit,
    and the cells of a stored pair of strings. *)
Definition stored_cell (p : string * string) : Letter :=
  {| name := p.1; label := p.1; status := Py.int_digit p.2 |}.

Definition stored_cells (letters statuses : string) : list Letter :=
  stored_cell <$> zip (Py.chars letters) (Py.chars statuses).

(** A stored pair as [save_statistics] writes it: as many status digits as
    letters, no more than the grid holds, every letter a key of the
    keyboard. *)
Definition stored_ok (letters statuses : string) : Prop :=
  String.length letters = String.length statuses ∧
  String.length letters ≤ COLUMN_SIZE * ROW_SIZE ∧
  Forall (λ k, is_Some (buttons_new !! k)) (Py.chars letters) ∧
  Forall (λ s, is_Some (Py.int_digit s)) (Py.chars statuses).

(** The record of a day won at the second attempt. *)
Definition won_record : Stats.t :=
  {| Stats.played := 2; Stats.stats := [0; 1; 0; 0; 0; 0]%Z;
     Stats.last_played := Some 0%Z;
     Stats.last_guesses := Some ("LLAMAALLOW", "1210022222");
     Stats.last_result := Some (Some true) |}.

(** ** Further grids and records used to state properties *)

(** A grid whose first cells hold the letters [names], unscored, with the
    cursor at [cur]. *)
Definition grid_of (names : list string) (cur : nat) : GuessView :=
  {| slots := (Letter_new <$> names)
              ++ replicate (COLUMN_SIZE * ROW_SIZE - length names)
                   (Letter_new "");
     current := Some cur |}.

(** What an edit of the current row leaves alone: the cursor stays in its
    row, the grid keeps its length, no status changes, and no cell outside
    the row of the cursor changes. *)
Definition edits_row_only (g g' : GuessView) : Prop :=
  ∃ c c', current g = Some c ∧ current g' = Some c' ∧
    row_start c' = row_start c ∧
    length (slots g') = length (slots g) ∧
    status <$> slots g' = status <$> slots g ∧
    ∀ i, ¬ (row_start c ≤ i < row_start c + COLUMN_SIZE) →
         slots g' !! i = slots g !! i.

(** Two cells with the same letter (name and label); only the status may
    differ. *)
Definition same_letter (b b' : Letter) : Prop :=
  name b' = name b ∧ label b' = label b.

(** ** The states of a game *)

(** A cell as typing leaves it, and a cell as scoring leaves it: the letter
    of a key of the keyboard, as name and as label, without a status or
    with one of the three marks. *)
Definition typed_cell (b : Letter) : Prop :=
  is_Some (buttons_new !! name b) ∧ label b = name b ∧ status b = None.

Definition scored_cell (b : Letter) : Prop :=
  is_Some (buttons_new !! name b) ∧ label b = name b ∧ marked b.

(** How many cells are scored: the rows before the row of the cursor, and
    that row too once the game is over. *)
Definition scored_count (app : WordleApp) (c : nat) : nat :=
  if result app is Some _ then row_start c + COLUMN_SIZE else row_start c.

(** The button of the key [k], given the scored cells: it carries the best
    state that they show for its letter. *)
Definition key_state (k : string) (b : Letter) (cells : list Letter) : Prop :=
  name b = k ∧ label b = k ∧ (status b = None ∨ marked b) ∧
  rank (status b) = observed_rank k cells.

(** What every state of a game started on a fresh day satisfies: the
    cursor is in the grid of thirty cells; the scored cells come first;
    the others are typed or empty, and while the game goes on those of the
    row of the cursor are filled before the cursor and empty after it, and
    the later rows are empty; the keyboard has its 26 keys, each in the
    state that the scored cells give it. *)
Definition game_inv (app : WordleApp) : Prop :=
  ∃ c, current (guess app) = Some c ∧ c < COLUMN_SIZE * ROW_SIZE ∧
    length (slots (guess app)) = COLUMN_SIZE * ROW_SIZE ∧
    (∀ i b, i < scored_count app c → slots (guess app) !! i = Some b →
            scored_cell b) ∧
    (∀ i b, scored_count app c ≤ i → slots (guess app) !! i = Some b →
            typed_cell b ∨ b = Letter_new "") ∧
    (result app = None →
     (∀ i b, row_start c ≤ i < c → slots (guess app) !! i = Some b →
             name b ≠ "") ∧
     (∀ i b, c < i → slots (guess app) !! i = Some b → name b = "")) ∧
    (is_Some (result app) →
     ∀ i b, scored_count app c ≤ i → slots (guess app) !! i = Some b →
            name b = "") ∧
    dom (buttons app) = dom buttons_new ∧
    (∀ k b, buttons app !! k = Some b →
            key_state k b (take (scored_count app c) (slots (guess app)))).

(** The senders of [ButtonPressed]: the two control buttons and the keys. *)
Definition is_button (sender : string) : Prop :=
  sender = "enter" ∨ sender = "backspace" ∨ is_Some (buttons_new !! sender).

(** A run of button presses. *)
Fixpoint press_all (La Ta : list string) (senders : list string)
    (app : WordleApp) : option WordleApp :=
  match senders with
  | [] => Some app
  | sender :: rest =>
      app' ← handle_button_pressed La Ta sender app;
      press_all La Ta rest app'
  end.

(** The game of day 0 with the solution ALLOW and LLAMA as the only other
    word, started without a statistics file, after the given button
    presses. *)
Definition after (senders : list string) : option WordleApp :=
  app0 ← on_mount ["allow"] 0 None;
  press_all ["allow"] ["llama"] senders app0.

(** Five letters and the enter button. *)
Definition submit (w : string) : list string := Py.chars w ++ ["enter"].

(** ** [GameStats.render] and [copy_result]: what they compute *)

(** [sum(self.stats["stats"])]. *)
Definition total_win (st : Stats.t) : Z := foldr Z.add 0%Z (Stats.stats st).

(** [current_streak] of [render]: the rows of the last game less one when
    the last game was won, else 0; a missing key raises. *)
Definition current_streak (st : Stats.t) : option Z :=
  r ← Stats.last_result st;
  if r is Some true then
    '(letters, _) ← Stats.last_guesses st;
    Some (Z.of_nat (String.length letters) / 5 - 1)%Z
  else Some 0%Z.

(** Whether the bar of [i] attempts is drawn in green:
    [i == current_streak + 1 and last_result is not None]. *)
Definition bar_highlighted (st : Stats.t) (i : Z) : option bool :=
  streak ← current_streak st;
  r ← Stats.last_result st;
  Some (bool_decide (i = streak + 1)%Z && bool_decide (r ≠ None)).

(** [BLOCKS[status]]; the three blocks are their UTF-8 bytes, and any other
    status is a missing key. *)
Definition BLOCKS (s : option Z) : option string :=
  if decide (s = Some ABSENT) then Some "⬛"
  else if decide (s = Some PRESENT) then Some "🟨"
  else if decide (s = Some CORRECT) then Some "🟩"
  else None.

(** The list [result] that [copy_result] builds, and the text it copies:
    the lines joined by newlines.  (The clipboard, the message and its
    timer are left out.) *)
Definition copy_result_lines (app : WordleApp) : option (list string) :=
  let guesses := valid_guesses (guess app) in
  let trials :=
    if result app is Some true then pretty (length guesses) else "x" in
  rows ← mapM (λ row : list Letter,
                 blocks ← mapM (BLOCKS ∘ status) row;
                 Some (Py.join blocks)) guesses;
  Some (("Wordle " +:+ pretty (index app) +:+ " " +:+ trials +:+ "/6")
          :: "" :: rows).

Fixpoint join_lines (lines : list string) : string :=
  match lines with
  | [] => ""
  | [x] => x
  | x :: rest => x +:+ newline +:+ join_lines rest
  end.

Definition copy_result_text (app : WordleApp) : option string :=
  join_lines <$> copy_result_lines app.

(** ** [WordleApp.on_key] *)

(** [string.ascii_letters], and [sub in s] on strings. *)
Definition ascii_letters : string :=
  "abcdefghijklmnopqrstuvwxyzABCDEFGHIJKLMNOPQRSTUVWXYZ".

Fixpoint str_in (sub s : string) : bool :=
  String.prefix sub s
  || match s with
     | EmptyString => false
     | String _ r => str_in sub r
     end.

(** [copy_result]: the text handed to the clipboard and the new message.
    (The timer that puts the old message back two seconds later is a later
    event and is left out.) *)
Definition copy_result (app : WordleApp) : option (string * WordleApp) :=
  text ← copy_result_text app;
  Some (text, set_message "Successfully copied to the clipboard." app).

Section Keys.
Variables La Ta : list string.

(** The result is the text copied to the clipboard, if any, and the new
    state. *)
Definition on_key (key : string) (app : WordleApp)
  : option (option string * WordleApp) :=
  if result app is Some _ then
    if decide (key = "c") then
      '(text, app') ← copy_result app; Some (Some text, app')
    else Some (None, app)
  else
    let app := set_message "" app in
    if str_in key ascii_letters then
      g ← input_letter (Py.upper key) (guess app);
      Some (None, set_guess g app)
    else if decide (key = "enter") then
      app' ← check_input La Ta app; Some (None, app')
    else if decide (key = "ctrl+h") then
      g ← backspace_letter (guess app); Some (None, set_guess g app)
    else Some (None, app).

End Keys.

(** * Scoring one guess *)

(** C1 (as amended).  For the solution ALLOW and the guess LLAMA the scoring
    gives Present, Correct, Present, Absent, Absent: ALLOW has two L, the L
    at position 1 is an exact match and the L at position 0 takes the other
    one; the A at position 2 takes the only A, so the A at position 4 is
    Absent.  The same statuses are on the first row of the grid after the
    word is typed and checked. *)
Theorem score_allow_llama :
  score "ALLOW" "LLAMA" =
    Some [Some PRESENT; Some CORRECT; Some PRESENT; Some ABSENT; Some ABSENT]
  ∧ (g ← type_word "LLAMA" empty_grid;
     '(r, g') ← check_solution "ALLOW" g;
     Some (r, current g', status <$> row_at 0 (slots g')))
    = Some (None, Some 5,
            [Some PRESENT; Some CORRECT; Some PRESENT; Some ABSENT; Some ABSENT]).
Proof. split; vm_compute; reflexivity. Qed.

(** C1 as the specification states it does not hold: the result is not
    Present, Absent, Absent, Absent, Absent. *)
Lemma score_allow_llama_not_one_present :
  score "ALLOW" "LLAMA" ≠
    Some [Some PRESENT; Some ABSENT; Some ABSENT; Some ABSENT; Some ABSENT].
Proof. vm_compute. discriminate. Qed.

(** * The cursor and the editing operations *)

Ltac Zify.zify_post_hook ::= Z.to_euclidean_division_equations.

Local Set Warnings "-clear-no-such-hyp".

Local Arguments Nat.modulo : simpl never.
Local Arguments Nat.div : simpl never.
Local Arguments Py.Counter_get : simpl never.
Local Arguments Py.Counter_dec : simpl never.

Lemma truthy_true s : Py.truthy s = true ↔ s ≠ "".
Proof. unfold Py.truthy. by rewrite bool_decide_eq_true. Qed.

Lemma truthy_false s : Py.truthy s = false ↔ s = "".
Proof.
  unfold Py.truthy. rewrite bool_decide_eq_false.
  destruct (decide (s = "")); naive_solver.
Qed.

Lemma row_start_le c : row_start c ≤ c < row_start c + COLUMN_SIZE.
Proof. unfold row_start, COLUMN_SIZE. lia. Qed.

Lemma row_start_succ c :
  c mod COLUMN_SIZE ≠ COLUMN_SIZE - 1 → row_start (c + 1) = row_start c.
Proof. unfold row_start, COLUMN_SIZE. lia. Qed.

Lemma row_start_pred c :
  c mod COLUMN_SIZE ≠ 0 → row_start (c - 1) = row_start c ∧ 0 < c.
Proof. unfold row_start, COLUMN_SIZE. lia. Qed.

Lemma row_at_lookup start (l : list Letter) j :
  j < COLUMN_SIZE → row_at start l !! j = l !! (start + j).
Proof.
  intros Hj. unfold row_at. by rewrite lookup_take_lt, lookup_drop.
Qed.

Lemma row_at_lookup_Some start (l : list Letter) j b :
  row_at start l !! j = Some b → j < COLUMN_SIZE ∧ l !! (start + j) = Some b.
Proof.
  unfold row_at. intros H. apply lookup_take_Some in H as [H ?].
  by rewrite lookup_drop in H.
Qed.

Lemma first_empty_at (row : list Letter) col b :
  row !! col = Some b → name b = "" →
  (∀ j b', j < col → row !! j = Some b' → name b' ≠ "") →
  first_empty row = Some col.
Proof.
  revert col. induction row as [|x row IH]; intros [|col] Hb He Hpre;
    simplify_eq/=.
  - apply truthy_false in He. by rewrite He.
  - assert (Py.truthy (name x) = true) as ->.
    { apply truthy_true, (Hpre 0); [lia | done]. }
    rewrite (IH col); [done.. |].
    intros j b' Hj Hl. apply (Hpre (S j)); [lia | done].
Qed.

Lemma last_filled_none (row : list Letter) :
  (∀ j b, row !! j = Some b → name b = "") → last_filled row = None.
Proof.
  induction row as [|x row IH]; intros H; [done |]. simpl.
  rewrite IH; [| intros j b' Hl; by apply (H (S j))].
  assert (Py.truthy (name x) = false) as ->; [| done].
  apply truthy_false. by apply (H 0).
Qed.

Lemma last_filled_at (row : list Letter) col b :
  row !! col = Some b → name b ≠ "" →
  (∀ j b', col < j → row !! j = Some b' → name b' = "") →
  last_filled row = Some col.
Proof.
  revert col. induction row as [|x row IH]; intros [|col] Hb Hne Hpost;
    simplify_eq/=.
  - rewrite last_filled_none.
    + apply truthy_true in Hne. by rewrite Hne.
    + intros j b' Hl. apply (Hpost (S j)); [lia | done].
  - rewrite (IH col); [done.. |].
    intros j b' Hj Hl. apply (Hpost (S j)); [lia | done].
Qed.

Lemma row_shape_cursor g :
  row_shape g → cursor_last_filled_or_first_empty g = true.
Proof.
  intros (c & Hc & Hlt & Hlen & Hpre & Hpost).
  unfold cursor_last_filled_or_first_empty. rewrite Hc.
  pose proof (row_start_le c) as Hrs.
  assert (c mod COLUMN_SIZE < COLUMN_SIZE) as Hcol
    by (unfold COLUMN_SIZE; lia).
  assert (row_start c + c mod COLUMN_SIZE = c) as Hsum
    by (unfold row_start, COLUMN_SIZE; lia).
  destruct (lookup_lt_is_Some_2 (slots g) c Hlt) as [b Hb].
  assert (row_at (row_start c) (slots g) !! (c mod COLUMN_SIZE) = Some b)
    as Hrow by (rewrite row_at_lookup, Hsum; done).
  apply orb_true_iff.
  destruct (decide (name b = "")) as [He | Hne]; [right | left];
    apply bool_decide_eq_true.
  - eapply first_empty_at; [done.. |].
    intros j b' Hj Hl. apply row_at_lookup_Some in Hl as [? Hl].
    eapply Hpre; [| done]. lia.
  - eapply last_filled_at; [done.. |].
    intros j b' Hj Hl. apply row_at_lookup_Some in Hl as [? Hl].
    eapply Hpost; [| done]. lia.
Qed.

Lemma row_shape_empty_grid : row_shape empty_grid.
Proof.
  exists 0. repeat split; try done.
  - simpl. lia.
  - intros i b Hi. unfold row_start, COLUMN_SIZE in Hi. simpl in Hi. lia.
  - intros i b Hi Hl. unfold empty_grid, GuessView_on_mount, GuessView_new in Hl.
    cbn [slots] in Hl. apply lookup_replicate_1 in Hl as [-> _]. done.
Qed.

Lemma input_letter_row_shape letter g :
  row_shape g → ∃ g', input_letter letter g = Some g' ∧ row_shape g'.
Proof.
  intros (c & Hc & Hlt & Hlen & Hpre & Hpost).
  pose proof (row_start_le c) as Hrs.
  destruct (lookup_lt_is_Some_2 (slots g) c Hlt) as [b Hb].
  unfold input_letter. rewrite Hc. simpl. rewrite Hb. simpl.
  destruct (Py.truthy (name b)) eqn:Ht.
  - case_bool_decide as Hlast.
    + exists g. split; [done |]. by exists c.
    + assert (c + 1 < length (slots g)) as Hlt'
        by (rewrite Hlen in *; unfold COLUMN_SIZE, ROW_SIZE in *; lia).
      destruct (lookup_lt_is_Some_2 (slots g) (c + 1) Hlt') as [b' Hb'].
      rewrite Hb'. simpl. eexists. split; [done |].
      exists (c + 1). simpl. rewrite length_insert, row_start_succ by done.
      repeat split; [done.. | |].
      * intros i x Hi Hl. rewrite list_lookup_insert_ne in Hl by lia.
        destruct (decide (i = c)) as [-> | ?].
        -- apply truthy_true in Ht. congruence.
        -- eapply Hpre; [| done]. lia.
      * intros i x Hi Hl. rewrite list_lookup_insert_ne in Hl by lia.
        eapply Hpost; [| done]. lia.
  - eexists. split; [done |].
    exists c. simpl. rewrite length_insert.
    repeat split; [done.. | |].
    + intros i x Hi Hl. rewrite list_lookup_insert_ne in Hl by lia. eauto.
    + intros i x Hi Hl. rewrite list_lookup_insert_ne in Hl by lia. eauto.
Qed.

Lemma backspace_letter_row_shape g :
  row_shape g → ∃ g', backspace_letter g = Some g' ∧ row_shape g'.
Proof.
  intros (c & Hc & Hlt & Hlen & Hpre & Hpost).
  pose proof (row_start_le c) as Hrs.
  destruct (lookup_lt_is_Some_2 (slots g) c Hlt) as [b Hb].
  unfold backspace_letter. rewrite Hc. simpl. rewrite Hb. simpl.
  destruct (Py.truthy (name b)) eqn:Ht; simpl.
  - eexists. split; [done |].
    exists c. simpl. rewrite length_insert.
    repeat split; [done.. | |].
    + intros i x Hi Hl. rewrite list_lookup_insert_ne in Hl by lia. eauto.
    + intros i x Hi Hl. rewrite list_lookup_insert_ne in Hl by lia. eauto.
  - case_bool_decide as Hfirst.
    + exists g. split; [done |]. by exists c.
    + destruct (row_start_pred c Hfirst) as [Hrs' Hpos].
      assert (c - 1 < length (slots g)) as Hlt' by lia.
      destruct (lookup_lt_is_Some_2 (slots g) (c - 1) Hlt') as [b' Hb'].
      rewrite Hb'. simpl. eexists. split; [done |].
      exists (c - 1). simpl. rewrite length_insert, Hrs'.
      repeat split; [done.. | |].
      * intros i x Hi Hl. rewrite list_lookup_insert_ne in Hl by lia.
        eapply Hpre; [| done]. lia.
      * intros i x Hi Hl. rewrite list_lookup_insert_ne in Hl by lia.
        destruct (decide (i = c)) as [-> | ?].
        -- apply truthy_false in Ht. congruence.
        -- eapply Hpost; [| done]. lia.
Qed.

Lemma run_ops_row_shape ops g :
  row_shape g → ∃ g', run_ops ops g = Some g' ∧ row_shape g'.
Proof.
  revert g. induction ops as [|op ops IH]; intros g Hg; simpl.
  - by exists g.
  - assert (∃ g1, run_op op g = Some g1 ∧ row_shape g1) as (g1 & -> & Hg1).
    { destruct op; simpl;
        [by apply input_letter_row_shape | by apply backspace_letter_row_shape]. }
    simpl. by apply IH.
Qed.

(** C5 (as amended).  Starting from the empty grid, every sequence of
    [input_letter] and [backspace_letter] runs without an exception and
    leaves the cursor on the last filled cell of the current row or on its
    first empty cell: the cells of the row before the cursor are filled and
    those after it are empty. *)
Theorem cursor_invariant_edit (ops : list GridOp) :
  ∃ g, run_ops ops empty_grid = Some g ∧ row_shape g ∧
       cursor_last_filled_or_first_empty g = true.
Proof.
  destruct (run_ops_row_shape ops empty_grid row_shape_empty_grid)
    as (g & Hrun & Hg).
  exists g. auto using row_shape_cursor.
Qed.

(** C5 as the specification states it fails after the first key: the
    cursor stays on the letter just typed, while the first empty cell is the
    next one and the row is not full. *)
Lemma cursor_not_on_first_empty :
  ¬ ∀ ops g, run_ops ops empty_grid = Some g →
             cursor_first_empty_or_full g = true.
Proof.
  intros H. specialize (H [Input "A"] _ eq_refl).
  vm_compute in H. discriminate.
Qed.

(** * The two passes of the scoring *)

Lemma Counter_get_dec_eq c k :
  Py.Counter_get (Py.Counter_dec c k) k = (Py.Counter_get c k - 1)%Z.
Proof. unfold Py.Counter_dec, Py.Counter_get. by rewrite lookup_insert_eq. Qed.

Lemma Counter_get_dec_ne c k k' :
  k ≠ k' → Py.Counter_get (Py.Counter_dec c k) k' = Py.Counter_get c k'.
Proof.
  intros. unfold Py.Counter_dec, Py.Counter_get. by rewrite lookup_insert_ne.
Qed.

Lemma Counter_get_foldl l (c : gmap string Z) k :
  Py.Counter_get
    (foldl (λ c k, <[k := (Py.Counter_get c k + 1)%Z]> c) c l) k
  = (Py.Counter_get c k + Z.of_nat (multiplicity k l))%Z.
Proof.
  revert c. induction l as [|x l IH]; intros c; simpl; [lia |].
  rewrite IH. unfold Py.Counter_get at 1.
  case_bool_decide as Hx.
  - subst. rewrite lookup_insert_eq. simpl. lia.
  - rewrite lookup_insert_ne by done. fold (Py.Counter_get c k). lia.
Qed.

Lemma Counter_get_Counter l k :
  Py.Counter_get (Py.Counter l) k = Z.of_nat (multiplicity k l).
Proof.
  unfold Py.Counter. rewrite Counter_get_foldl.
  unfold Py.Counter_get. by rewrite lookup_empty.
Qed.

Lemma exact_matches_le_solution k sol letters :
  exact_matches k sol letters ≤ multiplicity k sol.
Proof.
  revert letters. induction sol as [|x sol IH]; intros [|b bs]; simpl;
    try lia.
  specialize (IH bs). repeat case_bool_decide; naive_solver lia.
Qed.

Lemma count_marked_open k letters :
  count_marked CORRECT k letters + count_open k letters
  = multiplicity k (name <$> letters).
Proof.
  induction letters as [|b bs IH]; simpl; [done |].
  repeat case_bool_decide; naive_solver lia.
Qed.

Lemma pass1_spec sol letters i counter :
  i + length letters ≤ length sol →
  Forall (λ b, status b ≠ Some CORRECT) letters →
  ∃ letters' counter',
    pass1 sol i letters counter = Some (letters', counter') ∧
    name <$> letters' = name <$> letters ∧
    (∀ k, Py.Counter_get counter' k
          = (Py.Counter_get counter k
             - Z.of_nat (exact_matches k (drop i sol) letters))%Z) ∧
    (∀ k, count_marked CORRECT k letters'
          = exact_matches k (drop i sol) letters) ∧
    (∀ j b, letters' !! j = Some b →
            status b = Some CORRECT ↔ sol !! (i + j) = Some (name b)).
Proof.
  revert i counter.
  induction letters as [|b bs IH]; intros i counter Hlen Hfresh; simpl.
  { eexists _, _. split; [done |]. split; [done |].
    split; [intros; destruct (drop i sol); simpl; lia |].
    split; [intros; by destruct (drop i sol) | done]. }
  simpl in Hlen. apply Forall_cons in Hfresh as [Hb Hfresh].
  destruct (lookup_lt_is_Some_2 sol i) as [x Hx]; [lia |].
  rewrite Hx. simpl. rewrite (drop_S _ _ _ Hx).
  destruct (decide (x = name b)) as [-> | Hne].
  - destruct (IH (S i) (Py.Counter_dec counter (name b)))
      as (bs' & counter' & -> & Hn & Hc & Hm & Hs); [lia | done |].
    simpl. eexists _, _. split; [done |]. simpl.
    split; [f_equal; exact Hn |].
    split; [| split].
    + intros k. rewrite Hc. case_bool_decide as Hk.
      * destruct Hk as [_ <-]. rewrite Counter_get_dec_eq. lia.
      * rewrite Counter_get_dec_ne by naive_solver. lia.
    + intros k. rewrite Hm. repeat case_bool_decide; naive_solver lia.
    + intros [|j] b' Hl; simplify_eq/=.
      * replace (i + 0) with i by lia. naive_solver.
      * replace (i + S j) with (S i + j) by lia. by apply Hs.
  - destruct (IH (S i) counter)
      as (bs' & counter' & -> & Hn & Hc & Hm & Hs); [lia | done |].
    simpl. eexists _, _. split; [done |]. simpl.
    split; [f_equal; exact Hn |].
    split; [| split].
    + intros k. rewrite Hc. case_bool_decide; naive_solver lia.
    + intros k. rewrite Hm. repeat case_bool_decide; naive_solver lia.
    + intros [|j] b' Hl; simplify_eq/=.
      * replace (i + 0) with i by lia. naive_solver.
      * replace (i + S j) with (S i + j) by lia. by apply Hs.
Qed.

Lemma pass2_names letters counter :
  name <$> pass2 letters counter = name <$> letters.
Proof.
  revert counter. induction letters as [|b bs IH]; intros counter; simpl;
    [done |].
  destruct (decide _); [| case_bool_decide]; simpl; f_equal; apply IH.
Qed.

Lemma pass2_correct k letters counter :
  count_marked CORRECT k (pass2 letters counter)
  = count_marked CORRECT k letters.
Proof.
  revert counter. induction letters as [|b bs IH]; intros counter; simpl;
    [done |].
  destruct (decide _) as [Hc | Hc]; [| case_bool_decide]; simpl; rewrite IH;
    repeat case_bool_decide; naive_solver.
Qed.

Lemma pass2_status letters counter j b' :
  pass2 letters counter !! j = Some b' →
  ∃ b, letters !! j = Some b ∧ name b' = name b ∧
       (status b' = Some CORRECT ↔ status b = Some CORRECT).
Proof.
  revert counter j. induction letters as [|b bs IH]; intros counter j;
    simpl; [done |].
  destruct (decide _) as [Hc | Hc]; [| case_bool_decide];
    destruct j as [|j]; simpl; intros Hl; simplify_eq; eauto;
    exists b; naive_solver.
Qed.

Lemma pass2_present k letters counter :
  (0 ≤ Py.Counter_get counter k)%Z →
  Z.of_nat (count_marked PRESENT k (pass2 letters counter))
  = Z.min (Z.of_nat (count_open k letters)) (Py.Counter_get counter k).
Proof.
  revert counter. induction letters as [|b bs IH]; intros counter Hk; simpl.
  { lia. }
  destruct (decide (status b = Some CORRECT)) as [Hc | Hc].
  - simpl. rewrite Nat2Z.inj_add, IH by done.
    rewrite Hc. repeat case_bool_decide; naive_solver lia.
  - case_bool_decide as Hz; simpl.
    + rewrite Nat2Z.inj_add, IH by done.
      repeat case_bool_decide; naive_solver lia.
    + destruct (decide (name b = k)) as [Heq | Hne].
      * rewrite Heq in *.
        rewrite Nat2Z.inj_add, IH by (rewrite Counter_get_dec_eq; lia).
        rewrite Counter_get_dec_eq.
        repeat case_bool_decide; naive_solver lia.
      * rewrite Nat2Z.inj_add, IH by (by rewrite Counter_get_dec_ne).
        rewrite Counter_get_dec_ne by done.
        repeat case_bool_decide; naive_solver lia.
Qed.

Lemma exact_matches_le_guess k sol letters :
  exact_matches k sol letters ≤ multiplicity k (name <$> letters).
Proof.
  revert letters. induction sol as [|x sol IH]; intros [|b bs]; simpl;
    try lia.
  specialize (IH bs). repeat case_bool_decide; naive_solver lia.
Qed.

Lemma score_letters_law solution letters :
  length letters = length (Py.chars solution) →
  Forall (λ b, status b ≠ Some CORRECT) letters →
  ∃ row, score_letters solution letters = Some row ∧
         scoring_law (Py.chars solution) letters row.
Proof.
  intros Hlen Hfresh. unfold score_letters.
  destruct (pass1_spec (Py.chars solution) letters 0
              (Py.Counter (Py.chars solution)))
    as (l1 & c1 & -> & Hn & Hc & Hm & Hs); [lia | done |].
  simpl. eexists. split; [done |]. rewrite drop_0 in *.
  split; [by rewrite pass2_names |].
  split; [| split].
  - intros i b Hl. apply pass2_status in Hl as (b1 & Hl1 & Hnm & Hst).
    rewrite Hst, Hnm. apply (Hs i b1 Hl1).
  - intros k. rewrite pass2_correct, Hm.
    pose proof (pass2_present k l1 c1) as Hp.
    pose proof (exact_matches_le_solution k (Py.chars solution) letters).
    rewrite Hc, Counter_get_Counter in Hp. lia.
  - intros k. rewrite pass2_correct, Hm.
    pose proof (pass2_present k l1 c1) as Hp.
    pose proof (exact_matches_le_solution k (Py.chars solution) letters).
    pose proof (exact_matches_le_guess k (Py.chars solution) letters).
    pose proof (count_marked_open k l1) as Ho.
    rewrite Hc, Counter_get_Counter in Hp. rewrite Hm, Hn in Ho. lia.
Qed.

Lemma count_marked_all_correct k letters :
  count_marked CORRECT k (set_status CORRECT <$> letters)
  = multiplicity k (name <$> letters).
Proof.
  induction letters as [|b bs IH]; csimpl; [done |].
  rewrite IH. repeat case_bool_decide; naive_solver.
Qed.

Lemma count_marked_none_present k letters :
  count_marked PRESENT k (set_status CORRECT <$> letters) = 0.
Proof.
  induction letters as [|b bs IH]; csimpl; [done |].
  rewrite IH. case_bool_decide; naive_solver.
Qed.

Lemma all_correct_law solution letters :
  Py.chars solution = name <$> letters →
  scoring_law (Py.chars solution) letters (set_status CORRECT <$> letters).
Proof.
  intros Hw. split; [| split; [| split]].
  - rewrite <- list_fmap_compose. done.
  - intros i b Hl. apply list_lookup_fmap_Some_1 in Hl as (b0 & -> & Hl).
    simpl. rewrite Hw, list_lookup_fmap, Hl. done.
  - intros k.
    rewrite count_marked_all_correct, count_marked_none_present, Hw. lia.
  - intros k.
    rewrite count_marked_all_correct, count_marked_none_present, Hw. lia.
Qed.

Lemma row_at_length {A} start (l : list A) :
  length (row_at start l) ≤ COLUMN_SIZE.
Proof. unfold row_at. rewrite length_take. lia. Qed.

Lemma row_at_put_row {A} start row (l : list A) :
  length row = length (row_at start l) →
  row_at start (put_row start row l) = row.
Proof.
  unfold row_at, put_row. rewrite length_take, length_drop. intros Hlen.
  destruct (decide (start ≤ length l)) as [Hle | Hgt].
  - rewrite drop_app_length' by (rewrite length_take; lia).
    destruct (decide (length row = COLUMN_SIZE)) as [H5 | H5].
    + by rewrite take_app_length'.
    + rewrite (drop_ge l) by lia. rewrite app_nil_r, take_ge; [done | lia].
  - assert (row = []) as -> by (apply length_zero_iff_nil; lia).
    rewrite (take_ge l) by lia. simpl.
    rewrite (drop_ge l (start + 0)) by lia.
    rewrite app_nil_r, (drop_ge l) by lia. done.
Qed.

(** C2.  For a solution and a current row of the same length whose cells
    are not yet marked CORRECT, [check_solution] returns, and the scored row
    keeps the letters of the guess, has no more CORRECT plus PRESENT cells
    of any letter than the solution has occurrences of it, marks CORRECT
    exactly the positions where guess and solution agree, and gives PRESENT
    only from what the exact matches leave of the solution's supply. *)
Theorem check_solution_multiplicity (solution : string) (g : GuessView)
    (c : nat) :
  current g = Some c →
  length (row_at (row_start c) (slots g)) = length (Py.chars solution) →
  Forall (λ b, status b ≠ Some CORRECT) (row_at (row_start c) (slots g)) →
  ∃ r g', check_solution solution g = Some (r, g') ∧
          scoring_law (Py.chars solution)
            (row_at (row_start c) (slots g))
            (row_at (row_start c) (slots g')).
Proof.
  intros Hc Hlen Hfresh. unfold check_solution. rewrite Hc. simpl.
  destruct (decide _) as [Hw | Hw].
  - eexists _, _. split; [done |]. simpl.
    rewrite row_at_put_row by (by rewrite length_fmap).
    by apply all_correct_law.
  - destruct (score_letters_law solution _ Hlen Hfresh) as (row & -> & Hlaw).
    simpl.
    assert (length row = length (row_at (row_start c) (slots g))) as Hrow.
    { destruct Hlaw as [Hn _].
      by rewrite <- (length_fmap name row), Hn, length_fmap. }
    case_bool_decide; eexists _, _; (split; [done |]); simpl;
      by rewrite row_at_put_row.
Qed.

Lemma check_solution_multiplicity_witness :
  ∃ r g', check_solution "ALLOW" (typed_grid "LLAMA") = Some (r, g') ∧
          scoring_law (Py.chars "ALLOW")
            (row_at (row_start 4) (slots (typed_grid "LLAMA")))
            (row_at (row_start 4) (slots g')).
Proof.
  apply (check_solution_multiplicity "ALLOW" (typed_grid "LLAMA") 4).
  - reflexivity.
  - reflexivity.
  - vm_compute. repeat constructor; discriminate.
Defined.

(** * The rows that count as attempts *)

Lemma put_row_row_at {A} start (l : list A) :
  put_row start (row_at start l) l = l.
Proof.
  unfold put_row, row_at. rewrite <- drop_drop.
  destruct (decide (COLUMN_SIZE ≤ length (drop start l))) as [Hle | Hgt].
  - rewrite length_take_le by done. by rewrite !take_drop.
  - rewrite (take_ge (drop start l)) by lia.
    by rewrite drop_all, app_nil_r, take_drop.
Qed.

Lemma put_row_length {A} start row (l : list A) :
  length row = length (row_at start l) →
  length (put_row start row l) = length l.
Proof.
  unfold put_row, row_at, COLUMN_SIZE.
  rewrite !length_app, !length_take, !length_drop. lia.
Qed.

Lemma fmap_row_at {A B} (f : A → B) start (l : list A) :
  f <$> row_at start l = row_at start (f <$> l).
Proof. unfold row_at. by rewrite fmap_take, fmap_drop. Qed.

Lemma fmap_put_row {A B} (f : A → B) start row (l : list A) :
  f <$> put_row start row l = put_row start (f <$> row) (f <$> l).
Proof.
  unfold put_row.
  by rewrite !fmap_app, fmap_take, fmap_drop, length_fmap.
Qed.

Lemma put_row_names start row (l : list Letter) :
  name <$> row = name <$> row_at start l →
  name <$> put_row start row l = name <$> l.
Proof.
  intros H. by rewrite fmap_put_row, H, fmap_row_at, put_row_row_at.
Qed.

Lemma takewhile_fmap {A B} (f : A → B) (p : B → bool) (l : list A) :
  f <$> Py.takewhile (λ x, p (f x)) l = Py.takewhile p (f <$> l).
Proof.
  induction l as [|x l IH]; csimpl; [done |].
  destruct (p (f x)); csimpl; [by rewrite IH | done].
Qed.

Lemma takewhile_length {A} (p : A → bool) (l : list A) n :
  n ≤ length l →
  (∀ i x, i < n → l !! i = Some x → p x = true) →
  (∀ x, l !! n = Some x → p x = false) →
  length (Py.takewhile p l) = n.
Proof.
  revert n. induction l as [|x l IH]; intros [|n] Hn Hpre Hstop; simpl in *;
    try lia.
  - by rewrite (Hstop x).
  - rewrite (Hpre 0 x) by (done || lia). simpl. f_equal.
    apply IH; [lia | | done].
    intros i y Hi Hl. apply (Hpre (S i)); [lia | done].
Qed.

Lemma partition_fuel_length {A} fuel (l : list A) :
  length l ≤ fuel →
  length (partition_fuel fuel l COLUMN_SIZE) = (length l + 4) / COLUMN_SIZE.
Proof.
  unfold COLUMN_SIZE. revert l.
  induction fuel as [|fuel IH]; intros l Hl; simpl.
  { destruct l; simpl in *; [done | lia]. }
  destruct (take 5 l) as [|x chunk] eqn:Ht.
  { destruct l; simplify_eq/=. done. }
  simpl. rewrite IH; rewrite length_drop.
  - destruct l; simplify_eq/=. lia.
  - destruct l; simplify_eq/=. lia.
Qed.

Lemma valid_guesses_length g :
  length (valid_guesses g)
  = (length (Py.takewhile Py.truthy (name <$> slots g)) + 4) / COLUMN_SIZE.
Proof.
  unfold valid_guesses, partition.
  rewrite partition_fuel_length by done.
  by rewrite <- takewhile_fmap, length_fmap.
Qed.

Lemma chars_nonempty s n x : Py.chars s !! n = Some x → x ≠ "".
Proof.
  revert n. induction s as [|a r IH]; intros [|n] Hn; simplify_eq/=;
    [done | by eapply IH].
Qed.

(** C9.  When the current row spells the (five-letter) solution,
    [check_solution] returns [True] with the cursor where it was, inside
    the winning row; and if the rows before it are filled and the cell after
    it is empty, the number of rows that [valid_guesses] yields (the
    attempts of the statistics and of the exported text) is the number of
    rows used, the winning one included. *)
Theorem check_solution_win_cursor (solution : string) (g : GuessView)
    (c : nat) :
  current g = Some c →
  Py.chars solution = name <$> row_at (row_start c) (slots g) →
  length (Py.chars solution) = COLUMN_SIZE →
  (∀ i b, i < row_start c → slots g !! i = Some b → name b ≠ "") →
  (∀ b, slots g !! (row_start c + COLUMN_SIZE) = Some b → name b = "") →
  ∃ g', check_solution solution g = Some (Some true, g') ∧
        current g' = Some c ∧
        row_start c ≤ c < row_start c + COLUMN_SIZE ∧
        length (valid_guesses g') = c / COLUMN_SIZE + 1.
Proof.
  intros Hc Hw Hlen Hbefore Hafter.
  unfold check_solution. rewrite Hc. simpl.
  rewrite decide_True by done.
  eexists. split; [done |]. split; [done |]. split; [apply row_start_le |].
  rewrite valid_guesses_length. simpl.
  rewrite put_row_names by (by rewrite <- list_fmap_compose).
  assert (length (row_at (row_start c) (slots g)) = COLUMN_SIZE) as Hrow.
  { by rewrite <- (length_fmap name), <- Hw. }
  assert (row_start c + COLUMN_SIZE ≤ length (slots g)) as Hfit.
  { unfold row_at in Hrow. rewrite length_take, length_drop in Hrow.
    unfold COLUMN_SIZE in *. lia. }
  rewrite (takewhile_length _ _ (row_start c + COLUMN_SIZE)).
  - unfold row_start, COLUMN_SIZE. lia.
  - by rewrite length_fmap.
  - intros i x Hi Hl. apply truthy_true.
    apply list_lookup_fmap_Some_1 in Hl as (b & -> & Hl).
    destruct (decide (i < row_start c)) as [Hlt | Hge]; [by eapply Hbefore |].
    assert ((name <$> row_at (row_start c) (slots g)) !! (i - row_start c)
            = Some (name b)) as Hn.
    { rewrite list_lookup_fmap, row_at_lookup by lia.
      replace (row_start c + (i - row_start c)) with i by lia.
      by rewrite Hl. }
    rewrite <- Hw in Hn. by eapply chars_nonempty.
  - intros x Hl. apply truthy_false.
    apply list_lookup_fmap_Some_1 in Hl as (b & -> & Hl). by apply Hafter.
Qed.

Lemma check_solution_win_cursor_witness :
  ∃ g', check_solution "ALLOW" (typed_grid "ALLOW") = Some (Some true, g') ∧
        current g' = Some 4 ∧
        row_start 4 ≤ 4 < row_start 4 + COLUMN_SIZE ∧
        length (valid_guesses g') = 4 / COLUMN_SIZE + 1.
Proof.
  apply (check_solution_win_cursor "ALLOW" (typed_grid "ALLOW") 4).
  - reflexivity.
  - reflexivity.
  - reflexivity.
  - intros i b Hi. vm_compute in Hi. lia.
  - intros b Hb. vm_compute in Hb. by simplify_eq.
Defined.

(** * Words, the keyboard and the statistics *)

Lemma join_chars s : Py.join (Py.chars s) = s.
Proof. induction s as [|a r IH]; simpl; [done | by rewrite IH]. Qed.

Lemma lower_upper_char c :
  is_lower c = true → Py.lower_char (Py.upper_char c) = c.
Proof.
  destruct c as [[] [] [] [] [] [] [] []]; vm_compute; intros H;
    try discriminate H; reflexivity.
Qed.

Lemma keyboard_has_upper c :
  is_lower c = true →
  is_Some (buttons_new !! String (Py.upper_char c) EmptyString).
Proof.
  destruct c as [[] [] [] [] [] [] [] []]; vm_compute; intros H;
    try discriminate H; eauto.
Qed.

Lemma lower_upper w : lowercase w = true → Py.lower (Py.upper w) = w.
Proof.
  induction w as [|c r IH]; simpl; [done |].
  intros [Hc Hr]%andb_true_iff. by rewrite lower_upper_char, IH.
Qed.

Lemma keyboard_has_word w k :
  lowercase w = true → k ∈ Py.chars (Py.upper w) →
  is_Some (buttons_new !! k).
Proof.
  induction w as [|c r IH]; simpl; [by intros _ ?%elem_of_nil |].
  intros [Hc Hr]%andb_true_iff [-> | Hk]%elem_of_cons;
    [by apply keyboard_has_upper | by apply IH].
Qed.

Lemma update_buttons_Some row (bs : gmap string Letter) :
  Forall (λ l, is_Some (bs !! name l) ∧ is_Some (status l)) row →
  ∃ bs', update_buttons row bs = Some bs' ∧ dom bs' = dom bs.
Proof.
  revert bs. induction row as [|l ls IH]; intros bs Hrow; simpl.
  { by exists bs. }
  apply Forall_cons in Hrow as [[[button Hb] [s Hs]] Hrow].
  rewrite Hb, Hs. simpl.
  destruct (IH (<[name l := raise_status s button]> bs)) as (bs' & -> & Hd).
  - eapply Forall_impl; [exact Hrow |]. intros l' [Hk ?]. split; [| done].
    apply lookup_insert_is_Some. destruct (decide (name l = name l')); auto.
  - exists bs'. split; [done |]. rewrite Hd. by apply dom_insert_lookup_L.
Qed.

Lemma takewhile_length_le {A} (p : A → bool) (l : list A) :
  length (Py.takewhile p l) ≤ length l.
Proof.
  induction l as [|x l IH]; simpl; [done |]. destruct (p x); simpl; lia.
Qed.

Lemma valid_guesses_bound g :
  length (slots g) ≤ COLUMN_SIZE * ROW_SIZE →
  length (valid_guesses g) ≤ ROW_SIZE.
Proof.
  intros Hlen. rewrite valid_guesses_length.
  pose proof (takewhile_length_le Py.truthy (name <$> slots g)) as Hle.
  rewrite length_fmap in Hle. unfold COLUMN_SIZE, ROW_SIZE in *. lia.
Qed.

Lemma index_Some {A} (l : list A) (i : Z) :
  (- Z.of_nat (length l) ≤ i < Z.of_nat (length l))%Z →
  ∃ n x, Py.index l i = Some n ∧ l !! n = Some x.
Proof.
  intros Hi. unfold Py.index.
  destruct (decide (0 ≤ i < _)%Z) as [H0 | H0].
  - destruct (lookup_lt_is_Some_2 l (Z.to_nat i)) as [x Hx]; [lia | eauto].
  - rewrite decide_True by lia.
    destruct (lookup_lt_is_Some_2 l (Z.to_nat (Z.of_nat (length l) + i)))
      as [x Hx]; [lia | eauto].
Qed.

(** What [save_statistics] does when it returns: only the statistics and the
    file change, and both get the counter raised by two. *)
Lemma save_statistics_Some app :
  length (slots (guess app)) ≤ COLUMN_SIZE * ROW_SIZE →
  length (Stats.stats (stats app)) = ROW_SIZE →
  ∃ data,
    save_statistics app
    = Some {| index := index app; solution := solution app; stats := data;
              result := result app; buttons := buttons app;
              message := message app; guess := guess app;
              stats_json := Some data |} ∧
    Stats.played data = (Stats.played (stats app) + 2)%Z ∧
    Stats.last_played data = Some (index app) ∧
    Stats.last_result data = Some (result app).
Proof.
  intros Hslots Hstats. unfold save_statistics.
  pose proof (valid_guesses_bound _ Hslots) as Hle.
  destruct (result app) as [[|]|]; simpl.
  - destruct (index_Some (Stats.stats (stats app))
                (Z.of_nat (length (valid_guesses (guess app))) - 1))
      as (n & x & -> & Hx); [unfold ROW_SIZE in *; lia |].
    simpl. rewrite Hx. simpl. eexists. split; [done |]. simpl.
    split; [lia | done].
  - eexists. split; [done |]. simpl. split; [lia | done].
  - eexists. split; [done |]. simpl. split; [lia | done].
Qed.

(** * Submitting a row *)

Section CheckInput.

Variables La Ta : list string.

Lemma chars_no_empty s : "" ∉ Py.chars s.
Proof.
  intros [i Hi]%list_elem_of_lookup_1. by apply chars_nonempty in Hi.
Qed.

Lemma chars_length s : length (Py.chars s) = String.length s.
Proof. induction s as [|a r IH]; simpl; [done | by rewrite IH]. Qed.

Lemma upper_length s : String.length (Py.upper s) = String.length s.
Proof. induction s as [|a r IH]; simpl; [done | by rewrite IH]. Qed.

(** C3.  Whatever the row of the cursor, if it spells the solution of the
    day (a lowercase word of the solution list, uppercased), [check_input]
    returns with every cell of the row CORRECT and the result [True], the
    cursor where it was; from then on the game is over: a pressed button
    changes nothing. *)
Theorem check_input_win (app : WordleApp) (c : nat) (w : string) :
  current (guess app) = Some c →
  length (slots (guess app)) = COLUMN_SIZE * ROW_SIZE →
  length (Stats.stats (stats app)) = ROW_SIZE →
  dom (buttons app) = dom buttons_new →
  w ∈ La → lowercase w = true → String.length w = COLUMN_SIZE →
  solution app = Py.upper w →
  name <$> row_at (row_start c) (slots (guess app))
    = Py.chars (solution app) →
  ∃ app', check_input La Ta app = Some app' ∧
          result app' = Some true ∧
          status <$> row_at (row_start c) (slots (guess app'))
            = replicate COLUMN_SIZE (Some CORRECT) ∧
          current (guess app') = Some c ∧
          ∀ sender, handle_button_pressed La Ta sender app' = Some app'.
Proof.
  intros Hc Hslots Hstats Hdom HLa Hlow Hlen Hsol Hword.
  assert (length (row_at (row_start c) (slots (guess app))) = COLUMN_SIZE)
    as Hrow.
  { by rewrite <- (length_fmap name), Hword, Hsol, chars_length,
      upper_length. }
  unfold check_input, current_word, current_guess. rewrite Hc. simpl.
  rewrite Hword, join_chars.
  rewrite bool_decide_eq_false_2 by apply chars_no_empty.
  replace (Py.lower (solution app)) with w by (by rewrite Hsol, lower_upper).
  rewrite (bool_decide_eq_false_2 (w ∉ La)) by naive_solver.
  rewrite andb_false_r.
  unfold check_solution. rewrite Hc. simpl.
  rewrite decide_True by done. simpl.
  rewrite row_at_put_row by (by rewrite length_fmap).
  destruct (update_buttons_Some
              (set_status CORRECT <$> row_at (row_start c) (slots (guess app)))
              (buttons app)) as (bs' & -> & Hbs').
  { apply Forall_fmap, Forall_forall. intros b Hb. simpl. split; [| eauto].
    apply elem_of_dom. rewrite Hdom. apply elem_of_dom.
    apply (keyboard_has_word w); [done |].
    rewrite <- Hsol, <- Hword. by apply list_elem_of_fmap_2. }
  simpl.
  match goal with |- context [save_statistics ?a] =>
    destruct (save_statistics_Some a) as (data & -> & _)
  end.
  { simpl. rewrite put_row_length by (by rewrite length_fmap).
    unfold COLUMN_SIZE, ROW_SIZE in *. lia. }
  { done. }
  eexists. split; [done |]. simpl.
  split; [done |]. split; [| split; [done |]].
  - rewrite row_at_put_row by (by rewrite length_fmap).
    revert Hrow. generalize (row_at (row_start c) (slots (guess app))).
    unfold COLUMN_SIZE.
    intros [|? [|? [|? [|? [|? [|? ?]]]]]] Hrow; simpl in Hrow;
      try discriminate Hrow; reflexivity.
  - intros sender. unfold handle_button_pressed. done.
Qed.

Lemma pass1_length sol i letters counter letters' counter' :
  pass1 sol i letters counter = Some (letters', counter') →
  length letters' = length letters.
Proof.
  revert i counter letters' counter'.
  induction letters as [|b bs IH]; intros i counter letters' counter' H;
    simplify_option_eq; [done | ..];
    match goal with H : pass1 _ _ _ _ = Some ?p |- _ => destruct p end;
    simplify_option_eq; simpl; f_equal; eauto.
Qed.

Lemma pass2_length letters counter :
  length (pass2 letters counter) = length letters.
Proof. by rewrite <- (length_fmap name), pass2_names, length_fmap. Qed.

Lemma pass2_marked letters counter : Forall marked (pass2 letters counter).
Proof.
  revert counter. induction letters as [|b bs IH]; intros counter; simpl;
    [done |].
  destruct (decide _) as [Hc | Hc]; [| case_bool_decide];
    constructor; unfold marked; simpl; auto.
Qed.

Lemma check_solution_marked solution g c r g' :
  current g = Some c → check_solution solution g = Some (r, g') →
  Forall marked (row_at (row_start c) (slots g')).
Proof.
  intros Hc. unfold check_solution, score_letters. rewrite Hc. simpl.
  destruct (decide _) as [Hw | Hw].
  - intros ?. simplify_eq/=.
    rewrite row_at_put_row by (by rewrite length_fmap).
    apply Forall_fmap, Forall_forall. intros b _. unfold marked. simpl. auto.
  - destruct (pass1 _ _ _ _) as [[l1 c1]|] eqn:H1; [| done]. simpl.
    apply pass1_length in H1.
    case_bool_decide; intros ?; simplify_eq/=;
      (rewrite row_at_put_row by (by rewrite pass2_length));
      apply pass2_marked.
Qed.

Lemma save_statistics_inv a a' :
  save_statistics a = Some a' →
  guess a' = guess a ∧ buttons a' = buttons a ∧ message a' = message a ∧
  result a' = result a.
Proof.
  unfold save_statistics. intros H.
  destruct (result a) as [[|]|]; simplify_option_eq; done.
Qed.

(** The steps of [check_input] once the row is complete and the word is in
    one of the lists. *)
Lemma check_input_scored_inv app c app' :
  current (guess app) = Some c →
  "" ∉ name <$> row_at (row_start c) (slots (guess app)) →
  Py.lower (Py.join (name <$> row_at (row_start c) (slots (guess app)))) ∈ Ta
  ∨ Py.lower (Py.join (name <$> row_at (row_start c) (slots (guess app)))) ∈ La →
  check_input La Ta app = Some app' →
  ∃ r g' bs',
    check_solution (solution app) (guess app) = Some (r, g') ∧
    update_buttons (row_at (row_start c) (slots g')) (buttons app) = Some bs' ∧
    guess app' = g' ∧ buttons app' = bs' ∧ result app' = r ∧
    match r with
    | Some _ =>
        message app'
        = message (show_result
                     {| index := index app; solution := solution app;
                        stats := stats app; result := r; buttons := bs';
                        message := message app; guess := g';
                        stats_json := stats_json app |})
    | None => message app' = message app
    end.
Proof.
  intros Hc Hfull Hknown.
  unfold check_input, current_word, current_guess. rewrite Hc. simpl.
  rewrite bool_decide_eq_false_2 by done.
  assert (bool_decide
            (Py.lower (Py.join (name <$> row_at (row_start c)
                                  (slots (guess app)))) ∉ Ta)
          && bool_decide
               (Py.lower (Py.join (name <$> row_at (row_start c)
                                     (slots (guess app)))) ∉ La) = false)
    as ->.
  { apply andb_false_iff.
    destruct Hknown; [left | right]; apply bool_decide_eq_false_2;
      naive_solver. }
  destruct (check_solution _ _) as [[r g']|]; [| done]. simpl.
  destruct (update_buttons _ _) as [bs'|] eqn:Hub; [| done]. simpl.
  destruct r as [r|].
  - intros (Hg & Hb & Hm & Hr)%save_statistics_inv. simpl in Hg, Hb, Hr.
    exists (Some r), g', bs'. repeat split; done.
  - intros ?. simplify_eq. exists None, g', bs'. repeat split; done.
Qed.

Lemma show_result_message a :
  message (show_result a) ≠ "Not enough letters" ∧
  message (show_result a) ≠ "Not in word list".
Proof.
  unfold show_result. destruct (result a) as [[|]|]; simpl; split;
    discriminate.
Qed.

(** C4.  On a row of the cursor with an empty cell [check_input] reports
    "Not enough letters"; on a complete row whose lowercased word is in
    neither list it reports "Not in word list"; in both cases nothing but
    the message changes.  Coming from a cleared message, these messages are
    reported in no other case. *)
Theorem check_input_rejects (app : WordleApp) (c : nat) :
  current (guess app) = Some c →
  message app = "" →
  let word := name <$> row_at (row_start c) (slots (guess app)) in
  let unknown :=
    ((Py.lower (Py.join word) ∉ Ta) ∧ (Py.lower (Py.join word) ∉ La)) in
  ("" ∈ word →
   check_input La Ta app = Some (set_message "Not enough letters" app)) ∧
  ("" ∉ word → unknown →
   check_input La Ta app = Some (set_message "Not in word list" app)) ∧
  (∀ app', check_input La Ta app = Some app' →
     (message app' = "Not enough letters" ↔ "" ∈ word) ∧
     (message app' = "Not in word list" ↔ (("" ∉ word) ∧ unknown)) ∧
     (message app' = "Not enough letters" ∨
      message app' = "Not in word list" →
      guess app' = guess app ∧ buttons app' = buttons app ∧
      result app' = result app ∧ stats app' = stats app ∧
      stats_json app' = stats_json app)).
Proof.
  intros Hc Hm word unknown.
  assert ("" ∈ word →
          check_input La Ta app = Some (set_message "Not enough letters" app))
    as Hincomplete.
  { intros He. unfold check_input, current_word, current_guess.
    rewrite Hc. simpl. fold word. by rewrite bool_decide_eq_true_2. }
  assert ("" ∉ word → unknown →
          check_input La Ta app = Some (set_message "Not in word list" app))
    as Hunknown.
  { intros He [HTa HLa]. unfold check_input, current_word, current_guess.
    rewrite Hc. simpl. fold word.
    rewrite bool_decide_eq_false_2 by done.
    by rewrite !bool_decide_eq_true_2. }
  split; [done |]. split; [done |].
  intros app' Happ'.
  destruct (decide ("" ∈ word)) as [He | He].
  { rewrite Hincomplete in Happ' by done. simplify_eq. simpl.
    repeat split; intros; try done; try discriminate; naive_solver. }
  destruct (decide (Py.lower (Py.join word) ∈ Ta)) as [HTa | HTa];
    [| destruct (decide (Py.lower (Py.join word) ∈ La)) as [HLa | HLa]].
  3: { rewrite Hunknown in Happ' by done. simplify_eq. simpl.
       repeat split; intros; try done; try discriminate; naive_solver. }
  all: assert (message app' ≠ "Not enough letters" ∧
               message app' ≠ "Not in word list") as [Hn1 Hn2].
  1, 3: destruct (check_input_scored_inv app c app' Hc He) as
        (r & g' & bs' & _ & _ & _ & _ & _ & Hmsg); [auto | done |];
      destruct r; [rewrite Hmsg; apply show_result_message |];
      rewrite Hmsg, Hm; split; discriminate.
  all: unfold unknown; naive_solver.
Qed.

Lemma rank_raise_status (s : Z) button :
  (0 ≤ s)%Z →
  rank (status (raise_status s button)) = Z.max (rank (status button)) s.
Proof. intros Hs. simpl. destruct (status button); simpl; lia. Qed.

Lemma update_buttons_rank row (bs bs' : gmap string Letter) k button :
  update_buttons row bs = Some bs' →
  Forall (λ l, ∃ s, status l = Some s ∧ (0 ≤ s)%Z) row →
  bs !! k = Some button →
  (-1 ≤ rank (status button))%Z →
  ∃ button', bs' !! k = Some button' ∧
    rank (status button')
    = Z.max (rank (status button)) (observed_rank k row).
Proof.
  revert bs button.
  induction row as [|l ls IH]; intros bs button Hrun Hrow Hk Hvalid;
    simpl in *.
  { simplify_eq. exists button. split; [done | lia]. }
  apply Forall_cons in Hrow as [(s & Hs & Hpos) Hrow].
  destruct (bs !! name l) as [bl|] eqn:Hbl; [| done]. simpl in Hrun.
  rewrite Hs in Hrun. simpl in Hrun.
  destruct (decide (name l = k)) as [Heq | Hne].
  - rewrite Heq in Hbl, Hrun. rewrite Hk in Hbl. injection Hbl as <-.
    destruct (IH _ (raise_status s button) Hrun Hrow) as (b' & Hb' & Hr).
    { by rewrite lookup_insert_eq. }
    { rewrite rank_raise_status by done. lia. }
    exists b'. split; [done |].
    rewrite Hr, rank_raise_status, Hs by done. simpl. lia.
  - destruct (IH _ button Hrun Hrow) as (b' & Hb' & Hr).
    { by rewrite lookup_insert_ne. }
    { done. }
    exists b'. done.
Qed.

Lemma observed_rank_le k row :
  Forall marked row → (observed_rank k row ≤ CORRECT)%Z.
Proof.
  unfold CORRECT. induction 1 as [|l ls Hl _ IH]; simpl; [lia |].
  destruct (decide _); [| done].
  destruct Hl as [-> | [-> | ->]]; unfold ABSENT, PRESENT, CORRECT; simpl;
    lia.
Qed.

(** C6.  After a submission that was scored, the state of every key of the
    keyboard is the greater of its former state and the best state the
    scored row shows for that letter, in the order unset, ABSENT, PRESENT,
    CORRECT; so no key goes down, and a CORRECT key stays CORRECT. *)
Theorem keyboard_max (app app' : WordleApp) (c : nat) :
  current (guess app) = Some c →
  "" ∉ name <$> row_at (row_start c) (slots (guess app)) →
  Py.lower (Py.join (name <$> row_at (row_start c) (slots (guess app)))) ∈ Ta
  ∨ Py.lower (Py.join (name <$> row_at (row_start c) (slots (guess app)))) ∈ La →
  check_input La Ta app = Some app' →
  ∀ k button, buttons app !! k = Some button →
    status button = None ∨ marked button →
    ∃ button', buttons app' !! k = Some button' ∧
      rank (status button')
      = Z.max (rank (status button))
              (observed_rank k (row_at (row_start c) (slots (guess app')))) ∧
      (rank (status button) ≤ rank (status button'))%Z ∧
      (status button = Some CORRECT → status button' = Some CORRECT).
Proof.
  intros Hc He Hknown Happ' k button Hk Hvalid.
  assert (-1 ≤ rank (status button))%Z as Hrank.
  { destruct Hvalid as [-> | [-> | [-> | ->]]];
      unfold ABSENT, PRESENT, CORRECT; simpl; lia. }
  destruct (check_input_scored_inv app c app' Hc He Hknown Happ')
    as (r & g' & bs' & Hcs & Hub & <- & <- & _ & _).
  pose proof (check_solution_marked _ _ _ _ _ Hc Hcs) as Hmarked.
  destruct (update_buttons_rank _ _ _ k button Hub) as (b' & Hb' & Hr);
    [| done | done |].
  { eapply Forall_impl; [exact Hmarked |].
    intros l [-> | [-> | ->]]; eexists; (split; [done |]);
      unfold ABSENT, PRESENT, CORRECT; lia. }
  exists b'. split; [done |]. split; [done |]. split; [lia |].
  intros Hcorrect. rewrite Hcorrect in Hr. simpl in Hr.
  pose proof (observed_rank_le k _ Hmarked) as Hle.
  unfold CORRECT in *.
  destruct (status b') as [z|]; simpl in Hr; [f_equal |]; lia.
Qed.

End CheckInput.

Lemma check_input_win_witness :
  ∃ app', check_input ["allow"] ["llama"] (typed_app "ALLOW") = Some app' ∧
          result app' = Some true ∧
          status <$> row_at (row_start 4) (slots (guess app'))
            = replicate COLUMN_SIZE (Some CORRECT) ∧
          current (guess app') = Some 4 ∧
          ∀ sender,
            handle_button_pressed ["allow"] ["llama"] sender app' = Some app'.
Proof.
  apply (check_input_win ["allow"] ["llama"] (typed_app "ALLOW") 4 "allow");
    try reflexivity.
  apply list_elem_of_singleton. reflexivity.
Defined.

Lemma check_input_rejects_witness :
  check_input ["allow"] ["llama"] (typed_app "LLA")
  = Some (set_message "Not enough letters" (typed_app "LLA")).
Proof.
  apply (check_input_rejects ["allow"] ["llama"] (typed_app "LLA") 2);
    try reflexivity.
  vm_compute. do 3 right. left.
Defined.

Lemma keyboard_max_witness :
  ∃ app', check_input ["allow"] ["llama"] (typed_app "LLAMA") = Some app' ∧
    ∀ k button, buttons (typed_app "LLAMA") !! k = Some button →
      status button = None ∨ marked button →
      ∃ button', buttons app' !! k = Some button' ∧
        rank (status button')
        = Z.max (rank (status button))
                (observed_rank k (row_at (row_start 4) (slots (guess app')))) ∧
        (rank (status button) ≤ rank (status button'))%Z ∧
        (status button = Some CORRECT → status button' = Some CORRECT).
Proof.
  eexists. split; [vm_compute; reflexivity |].
  apply (keyboard_max ["allow"] ["llama"] (typed_app "LLAMA") _ 4).
  - reflexivity.
  - vm_compute. intros H. repeat (apply elem_of_cons in H as [H | H];
      [discriminate H |]). by apply elem_of_nil in H.
  - left. vm_compute. left.
  - vm_compute. reflexivity.
Defined.

(** * Statistics and the replay of a stored day *)

(** C7, evaluated.  On the first day of an installation (nothing played,
    no file), winning at the first attempt leaves the played counter at 2,
    in memory and in the file, and counts one win in one attempt. *)
Theorem save_statistics_counts_twice :
  (app ← check_input ["allow"] ["llama"] (typed_app "ALLOW");
   Some (result app, Stats.played (stats (typed_app "ALLOW")),
         Stats.played (stats app), Stats.played <$> stats_json app,
         Stats.stats (stats app)))
  = Some (Some true, 0%Z, 2%Z, Some 2%Z, [1; 0; 0; 0; 0; 0]%Z).
Proof. vm_compute. reflexivity. Qed.

Lemma replay_spec pairs i sl (bs : gmap string Letter) :
  i + length pairs ≤ length sl →
  Forall (λ p : string * string,
            is_Some (bs !! p.1) ∧ is_Some (Py.int_digit p.2)) pairs →
  ∃ bs',
    replay i pairs sl bs
    = Some ((take i sl ++ (stored_cell <$> pairs)
               ++ drop (i + length pairs) sl)%list, bs') ∧
    update_buttons (stored_cell <$> pairs) bs = Some bs'.
Proof.
  revert i sl bs.
  induction pairs as [|[k st] rest IH]; intros i sl bs Hlen Hok.
  { exists bs. simpl. rewrite Nat.add_0_r, take_drop. done. }
  apply Forall_cons in Hok as [[[button Hb] [d Hd]] Hok].
  simpl in Hlen, Hb, Hd.
  destruct (lookup_lt_is_Some_2 sl i) as [cell Hcell]; [lia |].
  destruct (IH (S i) (<[i := set_status d (set_name k cell)]> sl)
               (<[k := raise_status d button]> bs))
    as (bs' & Hrun & Hkeys).
  { rewrite length_insert. lia. }
  { eapply Forall_impl; [exact Hok |]. intros p [Hp ?]. split; [| done].
    apply lookup_insert_is_Some. destruct (decide (k = p.1)); auto. }
  exists bs'. split.
  - cbn [replay]. rewrite Hcell. cbn [mbind option_bind].
    rewrite Hd. cbn [mbind option_bind]. rewrite Hb. cbn [mbind option_bind].
    rewrite Hrun. f_equal. f_equal.
    rewrite (take_S_r _ _ (set_status d (set_name k cell)))
      by (apply list_lookup_insert_eq; lia).
    rewrite take_insert_ge by lia. rewrite drop_insert_lt by lia.
    rewrite <- app_assoc. csimpl.
    replace (i + S (length rest)) with (S i + length rest) by lia.
    unfold stored_cell at 2. simpl. rewrite Hd. done.
  - csimpl. rewrite Hb. simpl. rewrite Hd. simpl. done.
Qed.

Lemma zip_stored_ok (ls ss : list string) (bs : gmap string Letter) :
  Forall (λ k, is_Some (bs !! k)) ls →
  Forall (λ s, is_Some (Py.int_digit s)) ss →
  Forall (λ p : string * string,
            is_Some (bs !! p.1) ∧ is_Some (Py.int_digit p.2)) (zip ls ss).
Proof.
  intros Hls. revert ss. induction Hls as [|k ls Hk _ IH]; intros ss Hss;
    [constructor |].
  destruct Hss as [|s ss Hs Hss]; [constructor |].
  simpl. constructor; [done | by apply IH].
Qed.

Lemma stored_cells_names letters statuses :
  String.length letters = String.length statuses →
  name <$> stored_cells letters statuses = Py.chars letters.
Proof.
  intros Hlen. unfold stored_cells. rewrite <- list_fmap_compose.
  apply (fst_zip (Py.chars letters) (Py.chars statuses)).
  rewrite !chars_length. lia.
Qed.

Lemma stored_cells_statuses letters statuses :
  String.length letters = String.length statuses →
  status <$> stored_cells letters statuses
  = Py.int_digit <$> Py.chars statuses.
Proof.
  intros Hlen. unfold stored_cells. rewrite <- list_fmap_compose.
  rewrite <- (snd_zip (Py.chars letters) (Py.chars statuses)) at 2
    by (rewrite !chars_length; lia).
  by rewrite <- list_fmap_compose.
Qed.

Lemma stored_cells_length letters statuses :
  String.length letters = String.length statuses →
  length (stored_cells letters statuses) = String.length letters.
Proof.
  intros Hlen. unfold stored_cells.
  rewrite length_fmap, length_zip, !chars_length. lia.
Qed.

Lemma init_game_replay a letters statuses r sl' bs' :
  ¬ (default (-1) (Stats.last_played (stats a)) < index a)%Z →
  Stats.last_guesses (stats a) = Some (letters, statuses) →
  Stats.last_result (stats a) = Some r →
  replay 0 (zip (Py.chars letters) (Py.chars statuses))
         (slots (guess a)) (buttons a) = Some (sl', bs') →
  init_game a
  = Some (show_result
            {| index := index a; solution := solution a; stats := stats a;
               result := r; buttons := bs'; message := message a;
               guess := {| slots := sl'; current := current (guess a) |};
               stats_json := stats_json a |}).
Proof.
  intros Hday Hguesses Hresult Hrun. unfold init_game.
  rewrite bool_decide_eq_false_2 by done.
  rewrite Hguesses. cbn [mbind option_bind]. rewrite Hrun.
  cbn [mbind option_bind]. rewrite Hresult. done.
Qed.

(** The whole of [on_mount] on a record of the same day. *)
Lemma on_mount_replay La today w rec letters statuses r :
  Py.getitem La today = Some w →
  ¬ (default (-1) (Stats.last_played rec) < today)%Z →
  Stats.last_guesses rec = Some (letters, statuses) →
  Stats.last_result rec = Some r →
  stored_ok letters statuses →
  ∃ bs',
    update_buttons (stored_cells letters statuses) buttons_new = Some bs' ∧
    on_mount La today (Some rec)
    = Some (show_result
              {| index := today; solution := Py.upper w; stats := rec;
                 result := r; buttons := bs'; message := "";
                 guess :=
                   {| slots :=
                        stored_cells letters statuses
                        ++ replicate
                             (COLUMN_SIZE * ROW_SIZE - String.length letters)
                             (Letter_new "");
                      current := Some 0 |};
                 stats_json := Some rec |}).
Proof.
  intros Hw Hday Hguesses Hresult (Hlen & Hfit & Hkeys & Hdigits).
  destruct (replay_spec (zip (Py.chars letters) (Py.chars statuses)) 0
              (replicate (COLUMN_SIZE * ROW_SIZE) (Letter_new ""))
              buttons_new) as (bs' & Hrun & Hbs').
  { rewrite length_zip, !chars_length, length_replicate. lia. }
  { by apply zip_stored_ok. }
  exists bs'. split; [done |].
  unfold on_mount. rewrite Hw. cbn [mbind option_bind].
  erewrite init_game_replay; [| exact Hday | exact Hguesses | exact Hresult
                               | exact Hrun].
  cbn [mbind option_bind]. f_equal.
  unfold show_result, set_guess, set_message, GuessView_on_mount.
  cbn [index solution stats result buttons message guess stats_json slots
       current default].
  rewrite take_0, app_nil_l, drop_replicate, Nat.add_0_l.
  rewrite length_zip, !chars_length, Hlen, Nat.min_id. done.
Qed.

(** C8.  With a record of an earlier day the session starts fresh: the
    stored result is reset, the grid is empty, and the played counter and
    the win counts are those of the record.  With a record of the same day
    (or a later one) whose stored strings are well formed, the grid holds
    the stored letters and statuses cell by cell in row-major order, the
    rest of it empty, the stored result is the result of the session, and
    the statistics, the played counter with them, are those of the
    record. *)
Theorem on_mount_resume (La : list string) (today : Z) (w : string)
    (rec : Stats.t) :
  Py.getitem La today = Some w →
  ((default (-1) (Stats.last_played rec) < today)%Z →
   ∃ app, on_mount La today (Some rec) = Some app ∧
     Stats.last_result (stats app) = Some None ∧ result app = None ∧
     slots (guess app)
       = replicate (COLUMN_SIZE * ROW_SIZE) (Letter_new "") ∧
     Stats.played (stats app) = Stats.played rec ∧
     Stats.stats (stats app) = Stats.stats rec) ∧
  (∀ letters statuses r,
     ¬ (default (-1) (Stats.last_played rec) < today)%Z →
     Stats.last_guesses rec = Some (letters, statuses) →
     Stats.last_result rec = Some r →
     stored_ok letters statuses →
     ∃ app, on_mount La today (Some rec) = Some app ∧
       slots (guess app)
         = (stored_cells letters statuses
            ++ replicate (COLUMN_SIZE * ROW_SIZE - String.length letters)
                 (Letter_new ""))%list ∧
       name <$> stored_cells letters statuses = Py.chars letters ∧
       status <$> stored_cells letters statuses
         = Py.int_digit <$> Py.chars statuses ∧
       result app = r ∧ stats app = rec ∧ stats_json app = Some rec).
Proof.
  intros Hw. split.
  - intros Hday. unfold on_mount. rewrite Hw. cbn [mbind option_bind].
    unfold init_game. cbn [stats index default].
    rewrite bool_decide_eq_true_2 by done. cbn [mbind option_bind].
    eexists. split; [done |]. done.
  - intros letters statuses r Hday Hguesses Hresult Hok.
    destruct (on_mount_replay La today w rec letters statuses r)
      as (bs' & _ & ->); [done.. |].
    destruct Hok as (Hlen & _).
    eexists. split; [done |].
    split; [done |].
    split; [by apply stored_cells_names |].
    split; [by apply stored_cells_statuses | done].
Qed.

Lemma on_mount_resume_witness :
  ∃ app, on_mount ["allow"] 0 (Some won_record) = Some app ∧
    slots (guess app)
      = (stored_cells "LLAMAALLOW" "1210022222"
         ++ replicate (COLUMN_SIZE * ROW_SIZE - String.length "LLAMAALLOW")
              (Letter_new ""))%list ∧
    name <$> stored_cells "LLAMAALLOW" "1210022222"
      = Py.chars "LLAMAALLOW" ∧
    status <$> stored_cells "LLAMAALLOW" "1210022222"
      = Py.int_digit <$> Py.chars "1210022222" ∧
    result app = Some true ∧ stats app = won_record ∧
    stats_json app = Some won_record.
Proof.
  refine (proj2 (on_mount_resume ["allow"] 0 "allow" won_record _)
            "LLAMAALLOW" "1210022222" (Some true) _ _ _ _).
  - reflexivity.
  - vm_compute. discriminate.
  - reflexivity.
  - reflexivity.
  - split; [reflexivity |]. split; [vm_compute; lia |].
    split; repeat (apply Forall_cons; split; [vm_compute; eauto |]);
      constructor.
Defined.

Lemma buttons_new_fresh k button :
  buttons_new !! k = Some button → status button = None.
Proof.
  unfold buttons_new. intros H%elem_of_list_to_map_2.
  apply list_elem_of_fmap in H as (k' & Heq & _). by simplify_eq.
Qed.

Lemma observed_rank_ge k row : (-1 ≤ observed_rank k row)%Z.
Proof.
  induction row as [|l ls IH]; simpl; [lia |]. destruct (decide _); lia.
Qed.

Lemma int_digit_nonneg s d : Py.int_digit s = Some d → (0 ≤ d)%Z.
Proof.
  unfold Py.int_digit. destruct s as [|c [|? ?]]; try done.
  case_bool_decide; [| done]. intros ?. simplify_eq. lia.
Qed.

Lemma init_game_current a a' :
  init_game a = Some a' → current (guess a') = current (guess a).
Proof.
  unfold init_game. case_bool_decide; intros Hrun.
  { by simplify_eq. }
  destruct (Stats.last_guesses (stats a)) as [[letters statuses]|];
    [| done].
  cbn [mbind option_bind] in Hrun.
  destruct (replay _ _ _ _) as [[sl' bs']|]; [| done].
  cbn [mbind option_bind] in Hrun.
  destruct (Stats.last_result (stats a)) as [r|]; [| done].
  cbn [mbind option_bind] in Hrun. by simplify_eq.
Qed.

(** C10.  On a well-formed record of the same day, [on_mount] returns with
    the stored cells back in the grid and every key of the keyboard at the
    best state its letter has among them, but with the cursor at 0, the
    first cell of the first row, however many rows were stored:
    [init_game] never touches the cursor, and mounting the grid sets it
    to 0. *)
Theorem on_mount_replay_cursor (La : list string) (today : Z) (w : string)
    (rec : Stats.t) (letters statuses : string) (r : option bool) :
  Py.getitem La today = Some w →
  ¬ (default (-1) (Stats.last_played rec) < today)%Z →
  Stats.last_guesses rec = Some (letters, statuses) →
  Stats.last_result rec = Some r →
  stored_ok letters statuses →
  ∃ app, on_mount La today (Some rec) = Some app ∧
    current (guess app) = Some 0 ∧
    take (String.length letters) (slots (guess app))
      = stored_cells letters statuses ∧
    (∀ k button, buttons_new !! k = Some button →
       ∃ button', buttons app !! k = Some button' ∧
         rank (status button')
         = observed_rank k (stored_cells letters statuses)) ∧
    (∀ a a', init_game a = Some a' →
             current (guess a') = current (guess a)).
Proof.
  intros Hw Hday Hguesses Hresult Hok.
  destruct (on_mount_replay La today w rec letters statuses r)
    as (bs' & Hbs' & ->); [done.. |].
  destruct Hok as (Hlen & _ & _ & Hdigits).
  eexists. split; [done |]. split; [done |].
  split; [| split; [| apply init_game_current]].
  - unfold show_result, set_message. cbn [guess slots].
    by rewrite take_app_length' by (by rewrite stored_cells_length).
  - intros k button Hk. cbn [show_result set_message buttons].
    destruct (update_buttons_rank _ _ _ k button Hbs') as (b' & Hb' & Hr);
      [| done | |].
    + unfold stored_cells. apply Forall_fmap, Forall_forall.
      intros [l s] Hin. simpl.
      assert (s ∈ Py.chars statuses) as Hs.
      { apply elem_of_zip_r in Hin. done. }
      destruct (proj1 (Forall_forall _ _) Hdigits s Hs) as [d Hd].
      exists d. split; [done | by eapply int_digit_nonneg].
    + rewrite (buttons_new_fresh k button Hk). simpl. lia.
    + exists b'. split; [done |]. rewrite Hr.
      rewrite (buttons_new_fresh k button Hk). simpl.
      pose proof (observed_rank_ge k (stored_cells letters statuses)). lia.
Qed.

Lemma on_mount_replay_cursor_witness :
  ∃ app, on_mount ["allow"] 0 (Some won_record) = Some app ∧
    current (guess app) = Some 0 ∧
    take (String.length "LLAMAALLOW") (slots (guess app))
      = stored_cells "LLAMAALLOW" "1210022222" ∧
    (∀ k button, buttons_new !! k = Some button →
       ∃ button', buttons app !! k = Some button' ∧
         rank (status button')
         = observed_rank k (stored_cells "LLAMAALLOW" "1210022222")) ∧
    (∀ a a', init_game a = Some a' →
             current (guess a') = current (guess a)).
Proof.
  apply (on_mount_replay_cursor ["allow"] 0 "allow" won_record
           "LLAMAALLOW" "1210022222" (Some true)).
  - reflexivity.
  - vm_compute. discriminate.
  - reflexivity.
  - reflexivity.
  - split; [reflexivity |]. split; [vm_compute; lia |].
    split; repeat (apply Forall_cons; split; [vm_compute; eauto |]);
      constructor.
Defined.

(** * The chunks of [partition] *)

Lemma partition_fuel_lookup {A} fuel (l : list A) n i :
  length l ≤ fuel →
  partition_fuel fuel l (S n) !! i
  = if decide (i * S n < length l) then Some (take (S n) (drop (i * S n) l))
    else None.
Proof.
  revert l i. induction fuel as [|fuel IH]; intros l i Hl.
  { destruct l; [| simpl in Hl; lia].
    case_decide as Hi; [simpl in Hi; lia | done]. }
  cbn [partition_fuel].
  destruct l as [|x l].
  { case_decide as Hi; [simpl in Hi; lia | done]. }
  cbn [take]. destruct i as [|i].
  { case_decide as Hi; [done | simpl in Hi; lia]. }
  cbn [lookup list_lookup].
  rewrite IH by (rewrite length_drop; simpl in *; lia).
  rewrite length_drop, drop_drop.
  replace (S n + i * S n) with (S i * S n) by lia.
  repeat case_decide; done || lia.
Qed.

(** X1.  The chunk of index [i] that [partition] yields for a positive size
    is the slice of that size starting at [i] times the size, and there is
    such a chunk exactly while that start is inside the list. *)
Theorem partition_lookup {A} (l : list A) (n i : nat) :
  partition l (S n) !! i
  = if decide (i * S n < length l) then Some (take (S n) (drop (i * S n) l))
    else None.
Proof. unfold partition. by apply partition_fuel_lookup. Qed.

Lemma partition_fuel_concat {A} fuel (l : list A) n :
  length l ≤ fuel → concat (partition_fuel fuel l (S n)) = l.
Proof.
  revert l. induction fuel as [|fuel IH]; intros l Hl.
  { destruct l; simpl in *; [done | lia]. }
  cbn [partition_fuel]. destruct l as [|x l]; [done |].
  cbn [take concat].
  rewrite IH by (rewrite length_drop; simpl in *; lia).
  exact (take_drop (S n) (x :: l)).
Qed.

(** X2.  Joining the chunks of [partition] gives the list back, in order:
    no item is lost, repeated or moved; and with size 0 there is no chunk
    at all. *)
Theorem partition_concat {A} (l : list A) (n : nat) :
  concat (partition l (S n)) = l ∧ partition l 0 = [].
Proof.
  split; [by apply partition_fuel_concat |].
  unfold partition. destruct l; reflexivity.
Qed.

(** * What editing leaves alone, and typing whole words *)

Lemma insert_same_status (sl : list Letter) i b s :
  sl !! i = Some b → status <$> <[i := set_name s b]> sl = status <$> sl.
Proof.
  intros Hb. rewrite list_fmap_insert. apply list_insert_id.
  by rewrite list_lookup_fmap, Hb.
Qed.

Lemma edits_row_only_refl g c : current g = Some c → edits_row_only g g.
Proof. intros Hc. exists c, c. by repeat split. Qed.

Lemma edits_row_only_trans g1 g2 g3 :
  edits_row_only g1 g2 → edits_row_only g2 g3 → edits_row_only g1 g3.
Proof.
  intros (c1 & c2 & Hc1 & Hc2 & Hr & Hl & Hs & Hf)
         (c2' & c3 & Hc2' & Hc3 & Hr' & Hl' & Hs' & Hf').
  simplify_eq. exists c1, c3. repeat split; try congruence.
  intros i Hi. rewrite Hf' by (by rewrite Hr). by apply Hf.
Qed.

Lemma run_op_frame op g g' :
  run_op op g = Some g' → edits_row_only g g'.
Proof.
  destruct op as [letter|]; simpl.
  - unfold input_letter. intros H.
    destruct (current g) as [c|] eqn:Hc; [| done]. simpl in H.
    destruct (slots g !! c) as [b|] eqn:Hb; [| done]. simpl in H.
    pose proof (row_start_le c) as Hrs.
    destruct (Py.truthy (name b)).
    + case_bool_decide as Hlast; [simplify_eq; by eapply edits_row_only_refl |].
      destruct (slots g !! (c + 1)) as [b'|] eqn:Hb'; [| done].
      simpl in H. simplify_eq. exists c, (c + 1). simpl.
      rewrite length_insert, row_start_succ by done.
      split_and!; try done; [by eapply insert_same_status |].
      intros i Hi. apply list_lookup_insert_ne.
      unfold row_start, COLUMN_SIZE in *. lia.
    + simplify_eq. exists c, c. simpl. rewrite length_insert.
      split_and!; try done; [by eapply insert_same_status |].
      intros i Hi. apply list_lookup_insert_ne.
      unfold row_start, COLUMN_SIZE in *. lia.
  - unfold backspace_letter. intros H.
    destruct (current g) as [c|] eqn:Hc; [| done]. simpl in H.
    destruct (slots g !! c) as [b|] eqn:Hb; [| done]. simpl in H.
    pose proof (row_start_le c) as Hrs.
    destruct (Py.truthy (name b)); simpl in H.
    + simplify_eq. exists c, c. simpl. rewrite length_insert.
      split_and!; try done; [by eapply insert_same_status |].
      intros i Hi. apply list_lookup_insert_ne.
      unfold row_start, COLUMN_SIZE in *. lia.
    + case_bool_decide as Hfirst;
        [simplify_eq; by eapply edits_row_only_refl |].
      destruct (slots g !! (c - 1)) as [b'|] eqn:Hb'; [| done].
      simpl in H. simplify_eq.
      destruct (row_start_pred c Hfirst) as [Hrs' Hpos].
      exists c, (c - 1). simpl. rewrite length_insert.
      split_and!; try done; [by eapply insert_same_status |].
      intros i Hi. apply list_lookup_insert_ne.
      unfold row_start, COLUMN_SIZE in *. lia.
Qed.

(** X3.  A sequence of [input_letter] and [backspace_letter] that runs on
    a mounted grid keeps the cursor in its row and the grid at its length,
    changes no status, and changes no cell outside the row of the cursor:
    editing cannot reach a submitted row or a later row. *)
Theorem run_ops_frame (ops : list GridOp) (g g' : GuessView) :
  is_Some (current g) → run_ops ops g = Some g' → edits_row_only g g'.
Proof.
  revert g. induction ops as [|op ops IH]; intros g [c Hc] Hrun;
    simpl in Hrun.
  { simplify_eq. by eapply edits_row_only_refl. }
  destruct (run_op op g) as [g1|] eqn:Hop; [| done]. simpl in Hrun.
  pose proof (run_op_frame _ _ _ Hop) as H1.
  eapply edits_row_only_trans; [exact H1 |].
  apply IH; [| done]. destruct H1 as (? & c' & _ & Hc' & _). eauto.
Qed.

Lemma run_ops_frame_witness :
  edits_row_only (typed_grid "LLA")
    (grid_of ["L"; "L"; "M"; "A"] 3).
Proof.
  apply (run_ops_frame [Backspace; Input "M"; Input "A"]).
  - vm_compute. eauto.
  - vm_compute. reflexivity.
Defined.

(** X4.  Typing a word of at most five letters, key by key, into the empty
    grid puts its letters into the first cells, one per cell and unscored,
    and leaves the cursor on the last letter typed. *)
Theorem type_word_typed_grid (w : string) :
  String.length w ≤ COLUMN_SIZE →
  type_word w empty_grid = Some (typed_grid w).
Proof.
  intros Hw.
  destruct w as [|a [|b [|c [|d [|e [|f w]]]]]];
    try (vm_compute; reflexivity).
  unfold COLUMN_SIZE in Hw. simpl in Hw. lia.
Qed.

Lemma type_word_typed_grid_witness :
  type_word "LLAMA" empty_grid = Some (typed_grid "LLAMA").
Proof. apply (type_word_typed_grid "LLAMA"). vm_compute. lia. Defined.

(** X5.  Once the five cells of the row are filled, further letters are
    dropped: whatever is typed, the grid and the cursor stay as they are. *)
Theorem input_letter_overfill (w : string) (letters : list string) :
  String.length w = COLUMN_SIZE →
  run_ops (Input <$> letters) (typed_grid w) = Some (typed_grid w).
Proof.
  intros Hw.
  destruct w as [|a [|b [|c [|d [|e [|f w]]]]]]; try discriminate Hw.
  set (g := typed_grid _) in *.
  induction letters as [|x xs IH]; [done |].
  change (input_letter x g ≫= run_ops (Input <$> xs) = Some g).
  assert (input_letter x g = Some g) as -> by (vm_compute; reflexivity).
  exact IH.
Qed.

Lemma input_letter_overfill_witness :
  run_ops (Input <$> ["S"; "X"]) (typed_grid "LLAMA")
  = Some (typed_grid "LLAMA").
Proof. apply (input_letter_overfill "LLAMA"). reflexivity. Defined.

(** X6.  Deleting as many letters as were typed gives the empty grid back,
    cursor included, and a further backspace changes nothing. *)
Theorem backspace_undoes_typing (w : string) :
  String.length w ≤ COLUMN_SIZE →
  run_ops (replicate (String.length w) Backspace) (typed_grid w)
    = Some empty_grid ∧
  backspace_letter empty_grid = Some empty_grid.
Proof.
  intros Hw. split; [| vm_compute; reflexivity].
  destruct w as [|a [|b [|c [|d [|e [|f w]]]]]];
    try (vm_compute; reflexivity).
  unfold COLUMN_SIZE in Hw. simpl in Hw. lia.
Qed.

Lemma backspace_undoes_typing_witness :
  run_ops (replicate (String.length "LLAMA") Backspace) (typed_grid "LLAMA")
    = Some empty_grid ∧
  backspace_letter empty_grid = Some empty_grid.
Proof. apply (backspace_undoes_typing "LLAMA"). vm_compute. lia. Defined.

(** * What scoring a row changes, and what it returns *)

Lemma pass1_same_letter sol i letters counter letters' counter' :
  pass1 sol i letters counter = Some (letters', counter') →
  Forall2 same_letter letters letters'.
Proof.
  revert i counter letters' counter'.
  induction letters as [|b bs IH]; intros i counter letters' counter' H;
    simpl in H.
  { simplify_eq. constructor. }
  destruct (sol !! i) as [s|]; [| done]. simpl in H.
  destruct (decide (s = name b));
    destruct (pass1 _ _ _ _) as [[bs' c1]|] eqn:Hrec; simplify_eq/=;
    (constructor; [by split | by eapply IH]).
Qed.

Lemma pass2_same_letter letters counter :
  Forall2 same_letter letters (pass2 letters counter).
Proof.
  revert counter. induction letters as [|b bs IH]; intros counter; simpl;
    [constructor |].
  destruct (decide _); [| case_bool_decide]; constructor; by try split.
Qed.

Lemma same_letter_fmap letters letters' :
  Forall2 same_letter letters letters' →
  name <$> letters' = name <$> letters ∧
  label <$> letters' = label <$> letters ∧
  length letters' = length letters.
Proof.
  induction 1 as [|b b' bs bs' [Hn Hl] _ (IHn & IHl & IHlen)]; [done |].
  csimpl. by rewrite Hn, Hl, IHn, IHl, IHlen.
Qed.

Lemma score_letters_same_letter solution letters letters' :
  score_letters solution letters = Some letters' →
  Forall2 same_letter letters letters'.
Proof.
  unfold score_letters. intros H.
  destruct (pass1 _ _ _ _) as [[l1 c1]|] eqn:H1; [| done].
  simpl in H. simplify_eq.
  pose proof (pass1_same_letter _ _ _ _ _ _ H1) as Ha.
  pose proof (pass2_same_letter l1 c1) as Hb.
  clear H1. revert Hb. generalize (pass2 l1 c1). revert Ha.
  generalize l1. clear.
  induction letters as [|b bs IH]; intros l1 Ha l2 Hb;
    inversion Ha; subst; inversion Hb; subst; constructor.
  - unfold same_letter in *. naive_solver congruence.
  - by eapply IH.
Qed.

Lemma put_row_fmap {A B} (f : A → B) start row (l : list A) :
  f <$> row = f <$> row_at start l → f <$> put_row start row l = f <$> l.
Proof.
  intros H. by rewrite fmap_put_row, H, fmap_row_at, put_row_row_at.
Qed.

Lemma put_row_outside {A} start row (l : list A) i :
  length row = length (row_at start l) →
  ¬ (start ≤ i < start + COLUMN_SIZE) →
  put_row start row l !! i = l !! i.
Proof.
  unfold row_at, put_row, COLUMN_SIZE.
  rewrite length_take, length_drop. intros Hlen Hi.
  destruct (decide (i < start)) as [Hlt | Hge].
  - destruct (decide (i < length l)) as [Hin | Hout].
    + rewrite lookup_app_l by (rewrite length_take; lia).
      by rewrite lookup_take_lt.
    + rewrite (lookup_ge_None_2 l) by lia. apply lookup_ge_None_2.
      rewrite !length_app, length_take, length_drop. lia.
  - destruct (decide (i < length l)) as [Hin | Hout].
    + rewrite lookup_app_r by (rewrite length_take; lia).
      rewrite lookup_app_r by (rewrite length_take; lia).
      rewrite lookup_drop, length_take. f_equal. lia.
    + rewrite (lookup_ge_None_2 l) by lia. apply lookup_ge_None_2.
      rewrite !length_app, length_take, length_drop. lia.
Qed.

(** The scored row of [check_solution], whatever it returns. *)
Lemma check_solution_row solution g c r g' :
  current g = Some c → check_solution solution g = Some (r, g') →
  ∃ row, slots g' = put_row (row_start c) row (slots g) ∧
         Forall2 same_letter (row_at (row_start c) (slots g)) row.
Proof.
  intros Hc. unfold check_solution. rewrite Hc. simpl.
  destruct (decide _) as [Hw | Hw].
  - intros ?. simplify_eq/=. eexists. split; [done |].
    clear. induction (row_at _ _); csimpl; constructor; by try split.
  - destruct (score_letters _ _) as [row|] eqn:Hrow; [| done]. simpl.
    apply score_letters_same_letter in Hrow.
    case_bool_decide; intros ?; simplify_eq/=; eauto.
Qed.

(** X7.  Scoring touches nothing but statuses of the row of the cursor:
    the grid keeps its length, every cell keeps its letter, and the cells
    outside that row are exactly as before. *)
Theorem check_solution_frame (solution : string) (g g' : GuessView)
    (c : nat) (r : option bool) :
  current g = Some c → check_solution solution g = Some (r, g') →
  length (slots g') = length (slots g) ∧
  name <$> slots g' = name <$> slots g ∧
  label <$> slots g' = label <$> slots g ∧
  ∀ i, ¬ (row_start c ≤ i < row_start c + COLUMN_SIZE) →
       slots g' !! i = slots g !! i.
Proof.
  intros Hc Hrun.
  destruct (check_solution_row _ _ _ _ _ Hc Hrun) as (row & -> & Hrow).
  apply same_letter_fmap in Hrow as (Hn & Hl & Hlen).
  split_and!.
  - by apply put_row_length.
  - by apply put_row_fmap.
  - by apply put_row_fmap.
  - intros i Hi. by apply put_row_outside.
Qed.

Lemma check_solution_frame_witness :
  ∃ g', check_solution "ALLOW" (typed_grid "LLAMA") = Some (None, g') ∧
    length (slots g') = length (slots (typed_grid "LLAMA")) ∧
    name <$> slots g' = name <$> slots (typed_grid "LLAMA") ∧
    label <$> slots g' = label <$> slots (typed_grid "LLAMA") ∧
    ∀ i, ¬ (row_start 4 ≤ i < row_start 4 + COLUMN_SIZE) →
         slots g' !! i = slots (typed_grid "LLAMA") !! i.
Proof.
  eexists. split; [vm_compute; reflexivity |].
  apply (check_solution_frame "ALLOW" (typed_grid "LLAMA") _ 4 None).
  - reflexivity.
  - vm_compute. reflexivity.
Defined.

Lemma all_correct_word sol guess row :
  scoring_law sol guess row → length guess = length sol →
  Forall (λ b, status b = Some CORRECT) row → name <$> guess = sol.
Proof.
  intros (Hn & Hc & _) Hlen Hall. rewrite <- Hn.
  apply list_eq. intros i. rewrite list_lookup_fmap.
  destruct (row !! i) as [b|] eqn:Hb; simpl.
  - symmetry. apply (Hc i b Hb). by eapply Forall_lookup_1 in Hall.
  - symmetry. apply lookup_ge_None_2. apply lookup_ge_None_1 in Hb.
    rewrite <- Hlen, <- (length_fmap name guess), <- Hn, length_fmap. done.
Qed.

(** X8.  What [check_solution] returns on a fresh row as long as the
    solution: [True] exactly when the row spells the solution, which is
    exactly when every cell comes out CORRECT; [False] exactly when it does
    not and the cursor is on the last cell of the grid; nothing otherwise.
    The cursor moves, by one cell, only when nothing is returned. *)
Theorem check_solution_outcome (solution : string) (g : GuessView)
    (c : nat) :
  current g = Some c →
  length (row_at (row_start c) (slots g)) = length (Py.chars solution) →
  Forall (λ b, status b ≠ Some CORRECT) (row_at (row_start c) (slots g)) →
  ∃ r g', check_solution solution g = Some (r, g') ∧
    current g' = Some (if r is None then c + 1 else c) ∧
    (r = Some true ↔
     name <$> row_at (row_start c) (slots g) = Py.chars solution) ∧
    (r = Some true ↔
     Forall (λ b, status b = Some CORRECT)
            (row_at (row_start c) (slots g'))) ∧
    (r = Some false ↔
     name <$> row_at (row_start c) (slots g) ≠ Py.chars solution ∧
     COLUMN_SIZE * ROW_SIZE - 1 ≤ c).
Proof.
  intros Hc Hlen Hfresh. unfold check_solution. rewrite Hc. simpl.
  destruct (decide _) as [Hw | Hw].
  - eexists _, _. split; [done |]. simpl.
    rewrite row_at_put_row by (by rewrite length_fmap).
    split_and!; [done | done | | naive_solver].
    split; [intros _ | done].
    apply Forall_fmap, Forall_forall. by intros b _.
  - destruct (score_letters_law solution _ Hlen Hfresh) as (row & -> & Hlaw).
    simpl.
    assert (length row = length (row_at (row_start c) (slots g))) as Hrow.
    { destruct Hlaw as [Hn _].
      by rewrite <- (length_fmap name row), Hn, length_fmap. }
    assert (¬ Forall (λ b, status b = Some CORRECT) row) as Hnot.
    { intros Hall. apply Hw. symmetry. by eapply all_correct_word. }
    case_bool_decide as Hlast; eexists _, _; (split; [done |]); simpl;
      rewrite row_at_put_row by done;
      (split_and!; [done | naive_solver | naive_solver |]).
    + split; [done |]. intros [_ ?]. unfold COLUMN_SIZE, ROW_SIZE in *. lia.
    + split; [intros _ | done]. split; [naive_solver |].
      unfold COLUMN_SIZE, ROW_SIZE in *. lia.
Qed.

Lemma check_solution_outcome_witness :
  ∃ r g', check_solution "ALLOW" (typed_grid "LLAMA") = Some (r, g') ∧
    current g' = Some (if r is None then 4 + 1 else 4) ∧
    (r = Some true ↔
     name <$> row_at (row_start 4) (slots (typed_grid "LLAMA"))
       = Py.chars "ALLOW") ∧
    (r = Some true ↔
     Forall (λ b, status b = Some CORRECT)
            (row_at (row_start 4) (slots g'))) ∧
    (r = Some false ↔
     name <$> row_at (row_start 4) (slots (typed_grid "LLAMA"))
       ≠ Py.chars "ALLOW" ∧
     COLUMN_SIZE * ROW_SIZE - 1 ≤ 4).
Proof.
  apply (check_solution_outcome "ALLOW" (typed_grid "LLAMA") 4).
  - reflexivity.
  - reflexivity.
  - vm_compute. repeat constructor; discriminate.
Defined.

Lemma multiplicity_zero k l : k ∉ l → multiplicity k l = 0.
Proof.
  induction l as [|x l IH]; simpl; [done |].
  intros [Hx Hl]%not_elem_of_cons. rewrite IH by done.
  by rewrite bool_decide_eq_false_2.
Qed.

Lemma multiplicity_pos k l : 0 < multiplicity k l → k ∈ l.
Proof.
  intros H. destruct (decide (k ∈ l)) as [|Hn]; [done |].
  rewrite multiplicity_zero in H by done. lia.
Qed.

Lemma count_marked_pos s k row i b :
  row !! i = Some b → name b = k → status b = Some s →
  0 < count_marked s k row.
Proof.
  revert i. induction row as [|x row IH]; intros [|i] Hb Hk Hs;
    simplify_eq/=.
  - rewrite bool_decide_eq_true_2 by done. lia.
  - specialize (IH i Hb eq_refl Hs). lia.
Qed.

(** X9.  On a fresh row as long as the solution, a letter that the
    solution does not contain comes out ABSENT; a cell comes out PRESENT
    only for a letter that the solution contains at another position; and
    ABSENT is never given to a letter that is in its place. *)
Theorem check_solution_absent (solution : string) (g g' : GuessView)
    (c : nat) (r : option bool) :
  current g = Some c →
  length (row_at (row_start c) (slots g)) = length (Py.chars solution) →
  Forall (λ b, status b ≠ Some CORRECT) (row_at (row_start c) (slots g)) →
  check_solution solution g = Some (r, g') →
  ∀ i b, row_at (row_start c) (slots g') !! i = Some b →
    (name b ∉ Py.chars solution → status b = Some ABSENT) ∧
    (status b = Some PRESENT →
     name b ∈ Py.chars solution ∧ Py.chars solution !! i ≠ Some (name b)) ∧
    (status b = Some ABSENT → Py.chars solution !! i ≠ Some (name b)).
Proof.
  intros Hc Hlen Hfresh Hrun i b Hb.
  pose proof (check_solution_marked _ _ _ _ _ Hc Hrun) as Hmarked.
  assert (scoring_law (Py.chars solution) (row_at (row_start c) (slots g))
            (row_at (row_start c) (slots g'))) as (_ & Hcorrect & Hsum & _).
  { revert Hrun. unfold check_solution. rewrite Hc. simpl.
    destruct (decide _) as [Hw | Hw].
    - intros ?. simplify_eq/=.
      rewrite row_at_put_row by (by rewrite length_fmap).
      by apply all_correct_law.
    - destruct (score_letters_law solution _ Hlen Hfresh)
        as (row & -> & Hlaw). simpl.
      assert (length row = length (row_at (row_start c) (slots g))).
      { destruct Hlaw as [Hn _].
        by rewrite <- (length_fmap name row), Hn, length_fmap. }
      case_bool_decide; intros ?; simplify_eq/=;
        by rewrite row_at_put_row. }
  pose proof (Forall_lookup_1 _ _ _ _ Hmarked Hb) as Hm.
  specialize (Hcorrect i b Hb). specialize (Hsum (name b)).
  split_and!.
  - intros Hnot. rewrite (multiplicity_zero _ _ Hnot) in Hsum.
    destruct Hm as [Hm | [Hm | Hm]]; [done | |];
      pose proof (count_marked_pos _ _ _ _ _ Hb eq_refl Hm); lia.
  - intros Hp. split.
    + apply multiplicity_pos.
      pose proof (count_marked_pos _ _ _ _ _ Hb eq_refl Hp). lia.
    + intros Hs. apply Hcorrect in Hs. rewrite Hp in Hs. discriminate.
  - intros Ha Hs. apply Hcorrect in Hs. rewrite Ha in Hs. discriminate.
Qed.

Lemma check_solution_absent_witness :
  ∃ g', check_solution "ALLOW" (typed_grid "LLAMA") = Some (None, g') ∧
  ∀ i b, row_at (row_start 4) (slots g') !! i = Some b →
    (name b ∉ Py.chars "ALLOW" → status b = Some ABSENT) ∧
    (status b = Some PRESENT →
     name b ∈ Py.chars "ALLOW" ∧ Py.chars "ALLOW" !! i ≠ Some (name b)) ∧
    (status b = Some ABSENT → Py.chars "ALLOW" !! i ≠ Some (name b)).
Proof.
  eexists. split; [vm_compute; reflexivity |].
  apply (check_solution_absent "ALLOW" (typed_grid "LLAMA") _ 4 None).
  - reflexivity.
  - reflexivity.
  - vm_compute. repeat constructor; discriminate.
  - vm_compute. reflexivity.
Defined.

Lemma pass1_short sol i letters counter :
  i ≤ length sol → length sol < i + length letters →
  pass1 sol i letters counter = None.
Proof.
  revert i counter.
  induction letters as [|b bs IH]; intros i counter Hi Hlen; simpl in *;
    [lia |].
  destruct (sol !! i) as [s|] eqn:Hs; [| done]. simpl.
  apply lookup_lt_Some in Hs.
  destruct (decide (s = name b)); rewrite IH by lia; done.
Qed.

(** X10.  With a solution shorter than the row, [check_solution] raises
    (the index into the solution runs out of range in the first loop):
    it returns no result and scores nothing. *)
Theorem check_solution_short_solution (solution : string) (g : GuessView)
    (c : nat) :
  current g = Some c →
  length (Py.chars solution) < length (row_at (row_start c) (slots g)) →
  check_solution solution g = None.
Proof.
  intros Hc Hlen. unfold check_solution, score_letters. rewrite Hc. simpl.
  rewrite decide_False.
  - rewrite pass1_short; [done | lia | simpl; lia].
  - intros Hw. rewrite Hw, length_fmap in Hlen. lia.
Qed.

Lemma check_solution_short_solution_witness :
  check_solution "ALL" (typed_grid "LLAMA") = None.
Proof.
  apply (check_solution_short_solution "ALL" (typed_grid "LLAMA") 4).
  - reflexivity.
  - vm_compute. lia.
Defined.

(** * The invariant of a game *)

Local Arguments buttons_new : simpl never.

Lemma chars_single s x : x ∈ Py.chars s → ∃ c, x = String c EmptyString.
Proof.
  induction s as [|a r IH]; simpl; [by intros ?%elem_of_nil |].
  intros [-> | Hx]%elem_of_cons; eauto.
Qed.

Lemma key_single k :
  is_Some (buttons_new !! k) → ∃ c, k = String c EmptyString.
Proof.
  intros [b Hb]. unfold buttons_new in Hb.
  apply elem_of_list_to_map_2, list_elem_of_fmap in Hb as (k' & Heq & Hk).
  simplify_eq. apply list_elem_of_In, in_concat in Hk as (row & Hrow & Hk).
  apply list_elem_of_In, list_elem_of_fmap in Hrow as (s & -> & _).
  apply list_elem_of_In in Hk. by eapply chars_single.
Qed.

Lemma key_nonempty k : is_Some (buttons_new !! k) → k ≠ "".
Proof. intros (c & ->)%key_single. discriminate. Qed.

Lemma typed_cell_nonempty b : typed_cell b → name b ≠ "".
Proof. intros (Hk & _). by apply key_nonempty. Qed.

Lemma scored_cell_nonempty b : scored_cell b → name b ≠ "".
Proof. intros (Hk & _). by apply key_nonempty. Qed.

Lemma typed_or_empty_set_name k b :
  is_Some (buttons_new !! k) → typed_cell b ∨ b = Letter_new "" →
  typed_cell (set_name k b).
Proof.
  intros Hk [(_ & _ & Hs) | ->]; unfold typed_cell; simpl; auto.
Qed.

Lemma typed_or_empty_clear b :
  typed_cell b ∨ b = Letter_new "" → set_name "" b = Letter_new "".
Proof.
  intros [(_ & _ & Hs) | ->]; [| done].
  unfold set_name, Letter_new. by rewrite Hs.
Qed.

Lemma game_inv_ext a b :
  guess b = guess a → result b = result a → buttons b = buttons a →
  game_inv a → game_inv b.
Proof.
  intros Hg Hr Hb (c & H). exists c. unfold scored_count in *.
  by rewrite Hg, Hr, Hb.
Qed.

Lemma game_inv_edit app g' c c' j x :
  game_inv app → result app = None →
  current (guess app) = Some c →
  current g' = Some c' → slots g' = <[j := x]> (slots (guess app)) →
  row_start c' = row_start c → row_start c ≤ j → c' < COLUMN_SIZE * ROW_SIZE →
  typed_cell x ∨ x = Letter_new "" →
  (∀ i b, row_start c ≤ i < c' → slots g' !! i = Some b → name b ≠ "") →
  (∀ i b, c' < i → slots g' !! i = Some b → name b = "") →
  game_inv (set_guess g' app).
Proof.
  intros (c0 & Hc0 & Hlt & Hlen & Hscored & Hrest & Hshape & _ & Hdom & Hkeys)
         Hres Hc Hc' Hslots Hrow Hj Hlt' Hx Hpre Hpost.
  simplify_eq. unfold scored_count in *. rewrite Hres in *.
  exists c'. unfold scored_count.
  cbn [set_guess guess result buttons]. rewrite Hres, Hrow, Hslots.
  split_and!; try done.
  - by rewrite length_insert.
  - intros i b Hi Hl. rewrite list_lookup_insert_ne in Hl by lia. eauto.
  - intros i b Hi Hl.
    apply list_lookup_insert_Some in Hl as [(-> & <- & ?) | [? Hl]]; [done |].
    eauto.
  - intros _. rewrite <- Hslots. done.
  - intros k b Hb. rewrite take_insert_ge by done. eauto.
Qed.

Lemma game_inv_input app letter g :
  game_inv app → result app = None → is_Some (buttons_new !! letter) →
  input_letter letter (guess app) = Some g → game_inv (set_guess g app).
Proof.
  intros Hinv Hres Hkey Hrun.
  pose proof Hinv as
    (c & Hc & Hlt & Hlen & Hscored & Hrest & Hshape & _ & Hdom & Hkeys).
  unfold scored_count in *. rewrite Hres in *.
  destruct (Hshape eq_refl) as [Hpre Hpost].
  pose proof (row_start_le c) as Hrs.
  unfold input_letter in Hrun. rewrite Hc in Hrun. simpl in Hrun.
  destruct (slots (guess app) !! c) as [b|] eqn:Hb; [| done]. simpl in Hrun.
  destruct (Py.truthy (name b)) eqn:Ht.
  - case_bool_decide as Hlast.
    { simplify_eq. eapply game_inv_ext; [| | | exact Hinv]; done. }
    destruct (slots (guess app) !! (c + 1)) as [b'|] eqn:Hb'; [| done].
    simpl in Hrun. simplify_eq.
    apply (game_inv_edit app _ c (c + 1) (c + 1) (set_name letter b'));
      try done.
    + by apply row_start_succ.
    + lia.
    + unfold COLUMN_SIZE, ROW_SIZE, row_start in *. lia.
    + left. apply typed_or_empty_set_name; [done |]. eapply Hrest; [| done].
      lia.
    + simpl. intros i x Hi Hl. rewrite list_lookup_insert_ne in Hl by lia.
      destruct (decide (i = c)) as [-> | ?].
      * apply truthy_true in Ht. congruence.
      * eapply Hpre; [| done]. lia.
    + simpl. intros i x Hi Hl. rewrite list_lookup_insert_ne in Hl by lia.
      eapply Hpost; [| done]. lia.
  - simplify_eq.
    apply (game_inv_edit app _ c c c (set_name letter b)); try done.
    + lia.
    + left. apply typed_or_empty_set_name; [done |]. eapply Hrest; [| done].
      lia.
    + simpl. intros i x Hi Hl. rewrite list_lookup_insert_ne in Hl by lia.
      eauto.
    + simpl. intros i x Hi Hl. rewrite list_lookup_insert_ne in Hl by lia.
      eauto.
Qed.

Lemma game_inv_backspace app g :
  game_inv app → result app = None →
  backspace_letter (guess app) = Some g → game_inv (set_guess g app).
Proof.
  intros Hinv Hres Hrun.
  pose proof Hinv as
    (c & Hc & Hlt & Hlen & Hscored & Hrest & Hshape & _ & Hdom & Hkeys).
  unfold scored_count in *. rewrite Hres in *.
  destruct (Hshape eq_refl) as [Hpre Hpost].
  pose proof (row_start_le c) as Hrs.
  unfold backspace_letter in Hrun. rewrite Hc in Hrun. simpl in Hrun.
  destruct (slots (guess app) !! c) as [b|] eqn:Hb; [| done]. simpl in Hrun.
  destruct (Py.truthy (name b)) eqn:Ht; simpl in Hrun.
  - simplify_eq.
    apply (game_inv_edit app _ c c c (set_name "" b)); try done.
    + lia.
    + right. apply typed_or_empty_clear. eapply Hrest; [| done]. lia.
    + simpl. intros i x Hi Hl. rewrite list_lookup_insert_ne in Hl by lia.
      eauto.
    + simpl. intros i x Hi Hl. rewrite list_lookup_insert_ne in Hl by lia.
      eauto.
  - case_bool_decide as Hfirst.
    { simplify_eq. eapply game_inv_ext; [| | | exact Hinv]; done. }
    destruct (row_start_pred c Hfirst) as [Hrs' Hpos].
    destruct (slots (guess app) !! (c - 1)) as [b'|] eqn:Hb'; [| done].
    simpl in Hrun. simplify_eq.
    apply (game_inv_edit app _ c (c - 1) (c - 1) (set_name "" b'));
      try done.
    + unfold row_start, COLUMN_SIZE in *. lia.
    + lia.
    + right. apply typed_or_empty_clear. eapply Hrest; [| done].
      unfold row_start, COLUMN_SIZE in *. lia.
    + simpl. intros i x Hi Hl. rewrite list_lookup_insert_ne in Hl by lia.
      eapply Hpre; [| done]. lia.
    + simpl. intros i x Hi Hl.
      destruct (decide (i = c - 1)) as [-> | ?]; [lia |].
      rewrite list_lookup_insert_ne in Hl by lia.
      destruct (decide (i = c)) as [-> | ?].
      * apply truthy_false in Ht. congruence.
      * eapply Hpost; [| done]. lia.
Qed.

Lemma observed_rank_app k l1 l2 :
  observed_rank k (l1 ++ l2)
  = Z.max (observed_rank k l1) (observed_rank k l2).
Proof.
  induction l1 as [|b l1 IH]; simpl.
  - pose proof (observed_rank_ge k l2). lia.
  - destruct (decide _); rewrite IH; lia.
Qed.

Lemma update_buttons_dom row (bs bs' : gmap string Letter) :
  update_buttons row bs = Some bs' → dom bs' = dom bs.
Proof.
  revert bs. induction row as [|l ls IH]; intros bs H; simpl in H.
  { by simplify_eq. }
  destruct (bs !! name l) as [button|] eqn:Hb; [| done]. simpl in H.
  destruct (status l) as [s|]; [| done]. simpl in H.
  rewrite (IH _ H). by apply dom_insert_lookup_L.
Qed.

Lemma raise_status_valid s button :
  s = ABSENT ∨ s = PRESENT ∨ s = CORRECT →
  status button = None ∨ marked button →
  marked (raise_status s button).
Proof.
  unfold marked, raise_status, ABSENT, PRESENT, CORRECT. simpl.
  intros [-> | [-> | ->]] [-> | [-> | [-> | ->]]]; simpl; auto.
Qed.

(** What the keyboard loop does to one key. *)
Lemma update_buttons_key row (bs bs' : gmap string Letter) k button :
  update_buttons row bs = Some bs' → Forall marked row →
  bs !! k = Some button → status button = None ∨ marked button →
  ∃ button', bs' !! k = Some button' ∧
    name button' = name button ∧ label button' = label button ∧
    (status button' = None ∨ marked button') ∧
    rank (status button')
    = Z.max (rank (status button)) (observed_rank k row).
Proof.
  revert bs button.
  induction row as [|l ls IH]; intros bs button Hrun Hrow Hk Hvalid;
    simpl in Hrun.
  { simplify_eq. exists button. split_and!; try done. simpl.
    destruct Hvalid as [-> | [-> | [-> | ->]]];
      unfold ABSENT, PRESENT, CORRECT; simpl; lia. }
  apply Forall_cons in Hrow as [Hl Hrow].
  destruct (bs !! name l) as [bl|] eqn:Hbl; [| done]. simpl in Hrun.
  destruct (status l) as [s|] eqn:Hs; [| done]. simpl in Hrun.
  assert (s = ABSENT ∨ s = PRESENT ∨ s = CORRECT) as Hsv.
  { unfold marked in Hl. rewrite Hs in Hl. naive_solver. }
  simpl. rewrite Hs.
  destruct (decide (name l = k)) as [Heq | Hne].
  - rewrite Heq in Hbl, Hrun. rewrite Hk in Hbl. injection Hbl as <-.
    destruct (IH _ (raise_status s button) Hrun Hrow)
      as (b' & Hb' & Hn & Hla & Hv & Hr).
    { by rewrite lookup_insert_eq. }
    { right. by apply raise_status_valid. }
    exists b'. split_and!; try done.
    rewrite Hr, rank_raise_status; simpl.
    + lia.
    + destruct Hsv as [-> | [-> | ->]]; unfold ABSENT, PRESENT, CORRECT; lia.
  - destruct (IH _ button Hrun Hrow) as (b' & Hb' & Hn & Hla & Hv & Hr).
    { by rewrite lookup_insert_ne. }
    { done. }
    exists b'. done.
Qed.

Lemma put_row_inside {A} start row (l : list A) i :
  start ≤ length l → start ≤ i < start + length row →
  put_row start row l !! i = row !! (i - start).
Proof.
  intros Hl Hi. unfold put_row.
  rewrite lookup_app_r by (rewrite length_take; lia).
  rewrite length_take, Nat.min_l by done.
  apply lookup_app_l. lia.
Qed.

Lemma take_put_row {A} start row (l : list A) :
  start ≤ length l →
  take (start + length row) (put_row start row l) = (take start l ++ row)%list.
Proof.
  intros Hl. unfold put_row. rewrite app_assoc.
  apply take_app_length'. rewrite length_app, length_take. lia.
Qed.

Lemma check_solution_current solution g c r g' :
  current g = Some c → check_solution solution g = Some (r, g') →
  current g' = Some (if r is None then c + 1 else c) ∧
  (r = None → c < COLUMN_SIZE * ROW_SIZE - 1).
Proof.
  intros Hc. unfold check_solution. rewrite Hc. simpl.
  destruct (decide _).
  - intros ?. by simplify_eq/=.
  - destruct (score_letters _ _); [| done]. simpl.
    case_bool_decide; intros ?; by simplify_eq/=.
Qed.

Lemma buttons_new_lookup k b : buttons_new !! k = Some b → b = Letter_new k.
Proof.
  unfold buttons_new. intros H%elem_of_list_to_map_2.
  apply list_elem_of_fmap in H as (k' & Heq & _). by simplify_eq.
Qed.

(** The grid and the keyboard after a complete row was scored. *)
Lemma scored_facts app c r g' bs' :
  game_inv app → result app = None → current (guess app) = Some c →
  "" ∉ name <$> row_at (row_start c) (slots (guess app)) →
  check_solution (solution app) (guess app) = Some (r, g') →
  update_buttons (row_at (row_start c) (slots g')) (buttons app) = Some bs' →
  c = row_start c + (COLUMN_SIZE - 1) ∧
  current g' = Some (if r is None then c + 1 else c) ∧
  (r = None → c < COLUMN_SIZE * ROW_SIZE - 1) ∧
  length (slots g') = COLUMN_SIZE * ROW_SIZE ∧
  (∀ i b, i < row_start c + COLUMN_SIZE → slots g' !! i = Some b →
          scored_cell b) ∧
  (∀ i b, row_start c + COLUMN_SIZE ≤ i → slots g' !! i = Some b →
          b = Letter_new "") ∧
  dom bs' = dom buttons_new ∧
  (∀ k b, bs' !! k = Some b →
          key_state k b (take (row_start c + COLUMN_SIZE) (slots g'))).
Proof.
  intros (c0 & Hc0 & Hlt & Hlen & Hscored & Hrest & Hshape & _ & Hdom & Hkeys)
         Hres Hc Hfull Hcs Hub.
  assert (c0 = c) as -> by congruence.
  unfold scored_count in *. rewrite Hres in *.
  destruct (Hshape eq_refl) as [Hpre Hpost].
  pose proof (row_start_le c) as Hrs.
  set (start := row_start c) in *.
  assert (start + COLUMN_SIZE ≤ length (slots (guess app))) as Hfit.
  { rewrite Hlen. unfold start, row_start, COLUMN_SIZE, ROW_SIZE in *. lia. }
  assert (length (row_at start (slots (guess app))) = COLUMN_SIZE) as Hrowlen.
  { unfold row_at. rewrite length_take, length_drop.
    unfold COLUMN_SIZE in *. lia. }
  assert (∀ i b, start ≤ i < start + COLUMN_SIZE →
                 slots (guess app) !! i = Some b → typed_cell b) as Htyped.
  { intros i b Hi Hb.
    destruct (Hrest i b) as [? | ->]; [lia | done | done |].
    exfalso. apply Hfull. apply list_elem_of_fmap. exists (Letter_new "").
    split; [done |]. apply list_elem_of_lookup. exists (i - start).
    rewrite row_at_lookup by lia.
    by replace (start + (i - start)) with i by lia. }
  assert (c = start + (COLUMN_SIZE - 1)) as Hlast.
  { destruct (decide (c = start + (COLUMN_SIZE - 1))) as [| Hne]; [done |].
    exfalso.
    destruct (lookup_lt_is_Some_2 (slots (guess app))
                (start + (COLUMN_SIZE - 1))) as [b Hb];
      [unfold COLUMN_SIZE in *; lia |].
    apply (typed_cell_nonempty b).
    - apply (Htyped (start + (COLUMN_SIZE - 1))); [| done].
      unfold COLUMN_SIZE. lia.
    - apply (Hpost (start + (COLUMN_SIZE - 1))); [| done].
      unfold COLUMN_SIZE in *. lia. }
  destruct (check_solution_row _ _ _ _ _ Hc Hcs) as (row & Hslots & Hsame).
  pose proof (check_solution_marked _ _ _ _ _ Hc Hcs) as Hmarked.
  destruct (check_solution_current _ _ _ _ _ Hc Hcs) as [Hcur Hr29].
  pose proof (same_letter_fmap _ _ Hsame) as (_ & _ & Hrow5).
  fold start in Hslots, Hsame, Hmarked, Hrow5, Hub.
  rewrite Hslots, row_at_put_row in Hmarked, Hub by done.
  rewrite Hrowlen in Hrow5.
  split; [done |]. split; [done |]. split; [done |].
  rewrite Hslots.
  split_and!.
  - rewrite put_row_length by (by rewrite Hrowlen). done.
  - intros i b Hi Hb.
    destruct (decide (i < start)) as [Hlow | Hin].
    + rewrite put_row_outside in Hb by (rewrite ?Hrowlen; done || lia).
      by eapply Hscored.
    + rewrite put_row_inside in Hb by lia.
      destruct (Forall2_lookup_r _ _ _ _ _ Hsame Hb) as (b0 & Hb0 & Hn & Hl).
      apply row_at_lookup_Some in Hb0 as [_ Hb0].
      destruct (Htyped (start + (i - start)) b0) as (Hk & Hlab & _);
        [lia | done |].
      split_and!.
      * by rewrite Hn.
      * by rewrite Hn, Hl.
      * by eapply Forall_lookup_1 in Hmarked.
  - intros i b Hi Hb.
    rewrite put_row_outside in Hb by (rewrite ?Hrowlen; done || lia).
    destruct (Hrest i b) as [Ht | ->]; [lia | done | | done].
    exfalso. apply (typed_cell_nonempty b Ht).
    apply (Hpost i); [| done]. unfold COLUMN_SIZE in *. lia.
  - rewrite (update_buttons_dom _ _ _ Hub). done.
  - intros k b Hb.
    assert (is_Some (buttons app !! k)) as [b0 Hb0].
    { apply elem_of_dom. rewrite <- (update_buttons_dom _ _ _ Hub).
      apply elem_of_dom. eauto. }
    destruct (Hkeys k b0 Hb0) as (Hn0 & Hl0 & Hv0 & Hr0).
    destruct (update_buttons_key _ _ _ k b0 Hub Hmarked Hb0 Hv0)
      as (b' & Hb' & Hn & Hl & Hv & Hr).
    simplify_eq. unfold key_state.
    rewrite <- Hrow5, take_put_row by lia.
    rewrite observed_rank_app, <- Hr0.
    split_and!; congruence.
Qed.

Lemma game_inv_scored app c r g' bs' app' :
  game_inv app → result app = None → current (guess app) = Some c →
  "" ∉ name <$> row_at (row_start c) (slots (guess app)) →
  check_solution (solution app) (guess app) = Some (r, g') →
  update_buttons (row_at (row_start c) (slots g')) (buttons app) = Some bs' →
  guess app' = g' → result app' = r → buttons app' = bs' →
  game_inv app'.
Proof.
  intros Hinv Hres Hc Hfull Hcs Hub Hg Hr Hb.
  destruct (scored_facts _ _ _ _ _ Hinv Hres Hc Hfull Hcs Hub)
    as (Hlast & Hcur & Hr29 & Hlen & Hscored & Hrest & Hdom & Hkeys).
  pose proof (row_start_le c) as Hrs.
  destruct Hinv as (c0 & Hc0 & Hlt & _).
  assert (c0 = c) as -> by congruence. subst g' r bs'.
  exists (if result app' is None then c + 1 else c).
  assert (scored_count app' (if result app' is None then c + 1 else c)
          = row_start c + COLUMN_SIZE) as ->.
  { unfold scored_count. destruct (result app'); [done |].
    unfold row_start, COLUMN_SIZE in *. lia. }
  split_and!; try done.
  - destruct (result app'); [done |]. specialize (Hr29 eq_refl). lia.
  - intros i b Hi Hl. right. by eapply Hrest.
  - intros Hnone. rewrite Hnone. split.
    + intros i b Hi Hl. exfalso.
      unfold row_start, COLUMN_SIZE in *. lia.
    + intros i b Hi Hl. rewrite (Hrest i b); [done | | done].
      unfold COLUMN_SIZE in *. lia.
  - intros _ i b Hi Hl. by rewrite (Hrest i b).
Qed.

Lemma game_inv_check_input La Ta app app' :
  game_inv app → result app = None →
  check_input La Ta app = Some app' → game_inv app'.
Proof.
  intros Hinv Hres Hrun.
  pose proof Hinv as (c & Hc & _).
  set (word := name <$> row_at (row_start c) (slots (guess app))).
  destruct (decide ("" ∈ word)) as [He | He].
  { revert Hrun. unfold check_input, current_word, current_guess.
    rewrite Hc. simpl. fold word. rewrite bool_decide_eq_true_2 by done.
    intros ?. simplify_eq. by eapply game_inv_ext; [| | | exact Hinv]. }
  destruct (decide (Py.lower (Py.join word) ∈ Ta
                    ∨ Py.lower (Py.join word) ∈ La)) as [Hk | Hk].
  - destruct (check_input_scored_inv La Ta app c app' Hc He Hk Hrun)
      as (r & g' & bs' & Hcs & Hub & Hg & Hb & Hr & _).
    by eapply game_inv_scored.
  - revert Hrun. unfold check_input, current_word, current_guess.
    rewrite Hc. simpl. fold word. rewrite bool_decide_eq_false_2 by done.
    rewrite !bool_decide_eq_true_2 by naive_solver. simpl.
    intros ?. simplify_eq. by eapply game_inv_ext; [| | | exact Hinv].
Qed.

Lemma handle_button_pressed_inv La Ta sender app app' :
  game_inv app → is_button sender →
  handle_button_pressed La Ta sender app = Some app' → game_inv app'.
Proof.
  intros Hinv Hsender. unfold handle_button_pressed.
  destruct (result app) as [r|] eqn:Hres.
  { intros ?. by simplify_eq. }
  assert (game_inv (set_message "" app)) as Hinv0
    by (by eapply game_inv_ext; [| | | exact Hinv]).
  destruct (decide (sender = "enter")) as [-> | Henter].
  { by apply game_inv_check_input. }
  destruct (decide (sender = "backspace")) as [-> | Hback].
  - intros Hrun.
    destruct (backspace_letter _) as [g|] eqn:Hg; [| done].
    simpl in Hrun. simplify_eq. by apply game_inv_backspace.
  - intros Hrun.
    destruct (input_letter _ _) as [g|] eqn:Hg; [| done].
    simpl in Hrun. simplify_eq.
    apply (game_inv_input _ sender); [done | done | | done].
    destruct Hsender as [? | [? | ?]]; done.
Qed.

Lemma on_mount_fresh La today file app :
  (default (-1) (Stats.last_played (default INITIAL_STATS file)) < today)%Z →
  on_mount La today file = Some app →
  game_inv app ∧ result app = None ∧ guess app = empty_grid ∧
  buttons app = buttons_new ∧ index app = today ∧ stats_json app = file.
Proof.
  intros Hday. unfold on_mount.
  destruct (Py.getitem La today) as [w|]; [| done].
  cbn [mbind option_bind]. unfold init_game. cbn [stats index].
  rewrite bool_decide_eq_true_2 by done. cbn [mbind option_bind].
  intros ?. simplify_eq. split; [| done].
  exists 0. unfold scored_count.
  cbn [set_guess guess result buttons GuessView_on_mount current slots
       GuessView_new].
  assert (row_start 0 = 0) as -> by done.
  split_and!; try done.
  - unfold COLUMN_SIZE, ROW_SIZE. lia.
  - intros i b Hi. lia.
  - intros i b _ Hb. right. by apply lookup_replicate_1 in Hb as [-> _].
  - intros _. split; [intros i b Hi; lia |].
    intros i b _ Hb. by apply lookup_replicate_1 in Hb as [-> _].
  - intros k b Hb. apply buttons_new_lookup in Hb as ->. by split_and!; auto.
Qed.

Lemma reachable_inv La Ta today file senders app0 app :
  (default (-1) (Stats.last_played (default INITIAL_STATS file)) < today)%Z →
  on_mount La today file = Some app0 →
  Forall is_button senders →
  press_all La Ta senders app0 = Some app →
  game_inv app.
Proof.
  intros Hday Hmount Hsenders.
  destruct (on_mount_fresh _ _ _ _ Hday Hmount) as (Hinv & _).
  clear Hmount. revert app0 Hinv.
  induction Hsenders as [|sender senders Hs _ IH]; intros app0 Hinv Hrun;
    simpl in Hrun.
  { by simplify_eq. }
  destruct (handle_button_pressed La Ta sender app0) as [app1|] eqn:H1;
    [| done].
  simpl in Hrun. eapply IH; [| done].
  by eapply handle_button_pressed_inv.
Qed.

Lemma after_inv senders app :
  Forall is_button senders → after senders = Some app → game_inv app.
Proof.
  unfold after. intros Hsenders Hrun.
  destruct (on_mount ["allow"] 0 None) as [app0|] eqn:H0; [| done].
  eapply (reachable_inv ["allow"] ["llama"] 0 None); [| done..].
  vm_compute. reflexivity.
Qed.

Ltac buttons :=
  repeat (apply Forall_cons; split;
          [first [ by left | by right; left
                 | right; right; vm_compute; eauto ] |]);
  constructor.

(** X11.  Every state that button presses lead to from the start of a
    fresh day satisfies [game_inv]: the scored rows come first, each cell of
    them with a key letter and one of the three marks; the row of the
    cursor is filled up to the cursor and empty after it, the later rows
    are empty; and each key of the keyboard shows the best mark that the
    scored cells give its letter. *)
Theorem press_all_inv (La Ta : list string) (today : Z)
    (file : option Stats.t) (senders : list string) (app0 app : WordleApp) :
  (default (-1) (Stats.last_played (default INITIAL_STATS file)) < today)%Z →
  on_mount La today file = Some app0 →
  Forall is_button senders →
  press_all La Ta senders app0 = Some app →
  game_inv app.
Proof. apply reachable_inv. Qed.

Lemma press_all_inv_witness :
  ∃ app0 app,
    on_mount ["allow"] 0 None = Some app0 ∧
    press_all ["allow"] ["llama"]
      ["L"; "L"; "A"; "M"; "A"; "enter"; "A"; "backspace"; "W"] app0
      = Some app ∧
    game_inv app.
Proof.
  eexists _, _. split; [vm_compute; reflexivity |].
  split; [vm_compute; reflexivity |].
  eapply (press_all_inv ["allow"] ["llama"] 0 None
            ["L"; "L"; "A"; "M"; "A"; "enter"; "A"; "backspace"; "W"]).
  - vm_compute. reflexivity.
  - vm_compute. reflexivity.
  - buttons.
  - vm_compute. reflexivity.
Defined.

(** * Submitting a row in a game *)

Lemma row_typed app c :
  game_inv app → result app = None → current (guess app) = Some c →
  "" ∉ name <$> row_at (row_start c) (slots (guess app)) →
  Forall typed_cell (row_at (row_start c) (slots (guess app))) ∧
  length (row_at (row_start c) (slots (guess app))) = COLUMN_SIZE.
Proof.
  intros (c0 & Hc0 & Hlt & Hlen & _ & Hrest & _) Hres Hc Hfull.
  assert (c0 = c) as -> by congruence.
  unfold scored_count in *. rewrite Hres in *.
  pose proof (row_start_le c) as Hrs.
  split.
  - apply Forall_lookup_2. intros j b Hb.
    pose proof (list_elem_of_lookup_2 _ _ _ Hb) as Hin.
    apply row_at_lookup_Some in Hb as [Hj Hb].
    destruct (Hrest _ b (Nat.le_add_r _ _) Hb) as [? | ->]; [done |].
    exfalso. apply Hfull. by apply (list_elem_of_fmap_2 name) in Hin.
  - unfold row_at. rewrite length_take, length_drop, Hlen.
    unfold row_start, COLUMN_SIZE, ROW_SIZE in *. lia.
Qed.

Lemma check_solution_total solution g c :
  current g = Some c →
  length (row_at (row_start c) (slots g)) = length (Py.chars solution) →
  Forall (λ b, status b ≠ Some CORRECT) (row_at (row_start c) (slots g)) →
  ∃ r g', check_solution solution g = Some (r, g') ∧
    (r = Some true ↔
     Py.chars solution = name <$> row_at (row_start c) (slots g)) ∧
    (r = Some false → COLUMN_SIZE * ROW_SIZE - 1 ≤ c).
Proof.
  intros Hc Hlen Hfresh. unfold check_solution. rewrite Hc. simpl.
  destruct (decide _) as [Hw | Hw].
  - eexists _, _. split; [done |]. done.
  - destruct (score_letters_law solution _ Hlen Hfresh) as (row & -> & _).
    simpl. case_bool_decide as Hlast; eexists _, _; (split; [done |]);
      (split; [naive_solver |]); [done |].
    intros _. unfold COLUMN_SIZE, ROW_SIZE in *. lia.
Qed.

(** In a game, a complete row is scored without an exception. *)
Lemma scoring_runs app c :
  game_inv app → result app = None → current (guess app) = Some c →
  "" ∉ name <$> row_at (row_start c) (slots (guess app)) →
  String.length (solution app) = COLUMN_SIZE →
  ∃ r g' bs',
    check_solution (solution app) (guess app) = Some (r, g') ∧
    update_buttons (row_at (row_start c) (slots g')) (buttons app)
      = Some bs' ∧
    (r = Some true ↔
     Py.chars (solution app)
       = name <$> row_at (row_start c) (slots (guess app))) ∧
    (r = Some false → COLUMN_SIZE * ROW_SIZE - 1 ≤ c).
Proof.
  intros Hinv Hres Hc Hfull Hsol.
  destruct (row_typed _ _ Hinv Hres Hc Hfull) as [Htyped Hrow5].
  destruct (check_solution_total (solution app) (guess app) c)
    as (r & g' & Hcs & Hr & Hf);
    [done | by rewrite chars_length, Hsol | |].
  { eapply Forall_impl; [exact Htyped |]. intros b (_ & _ & ->). done. }
  destruct (check_solution_row _ _ _ _ _ Hc Hcs) as (row & Hslots & Hsame).
  pose proof (check_solution_marked _ _ _ _ _ Hc Hcs) as Hmarked.
  pose proof (same_letter_fmap _ _ Hsame) as (_ & _ & Hlen).
  rewrite Hslots, row_at_put_row in Hmarked by done.
  destruct Hinv as (? & _ & _ & _ & _ & _ & _ & _ & Hdom & _).
  destruct (update_buttons_Some row (buttons app)) as (bs' & Hub & _).
  { apply Forall_lookup_2. intros j b Hb.
    destruct (Forall2_lookup_r _ _ _ _ _ Hsame Hb) as (b0 & Hb0 & Hn & _).
    pose proof (Forall_lookup_1 _ _ _ _ Htyped Hb0) as (Hk & _).
    pose proof (Forall_lookup_1 _ _ _ _ Hmarked Hb) as Hm.
    split.
    - apply elem_of_dom. rewrite Hdom. apply elem_of_dom. by rewrite Hn.
    - destruct Hm as [-> | [-> | ->]]; eauto. }
  exists r, g', bs'. rewrite Hslots, row_at_put_row by done. done.
Qed.

Lemma takewhile_take {A} (p : A → bool) (l : list A) n :
  (∀ i x, i < n → l !! i = Some x → p x = true) →
  (∀ i x, n ≤ i → l !! i = Some x → p x = false) →
  Py.takewhile p l = take n l.
Proof.
  revert n. induction l as [|x l IH]; intros n Hpre Hpost; simpl.
  { by rewrite take_nil. }
  destruct n as [|n].
  - by rewrite (Hpost 0 x).
  - rewrite (Hpre 0 x) by (done || lia). simpl. f_equal. apply IH.
    + intros i y Hi Hl. apply (Hpre (S i)); [lia | done].
    + intros i y Hi Hl. apply (Hpost (S i)); [lia | done].
Qed.

(** The rows that count once the first [n] cells are the filled ones. *)
Lemma valid_guesses_filled g n :
  (∀ i b, i < n → slots g !! i = Some b → name b ≠ "") →
  (∀ i b, n ≤ i → slots g !! i = Some b → name b = "") →
  concat (valid_guesses g) = take n (slots g) ∧
  length (valid_guesses g)
  = (length (take n (slots g)) + 4) / COLUMN_SIZE.
Proof.
  intros Hpre Hpost.
  assert (Py.takewhile (λ x, Py.truthy (name x)) (slots g)
          = take n (slots g)) as Htw.
  { apply takewhile_take.
    - intros i b Hi Hb. apply truthy_true. eauto.
    - intros i b Hi Hb. apply truthy_false. eauto. }
  unfold valid_guesses. rewrite Htw. split.
  - apply (partition_fuel_concat _ _ 4). done.
  - unfold partition. by rewrite partition_fuel_length.
Qed.

(** [check_input] once the row is scored. *)
Lemma check_input_scoring La Ta app c r g' bs' :
  current (guess app) = Some c →
  "" ∉ name <$> row_at (row_start c) (slots (guess app)) →
  Py.lower (Py.join (name <$> row_at (row_start c) (slots (guess app)))) ∈ Ta
  ∨ Py.lower (Py.join (name <$> row_at (row_start c) (slots (guess app)))) ∈ La →
  check_solution (solution app) (guess app) = Some (r, g') →
  update_buttons (row_at (row_start c) (slots g')) (buttons app) = Some bs' →
  check_input La Ta app
  = if r is Some _ then
      save_statistics
        (show_result
           {| index := index app; solution := solution app;
              stats := stats app; result := r; buttons := bs';
              message := message app; guess := g';
              stats_json := stats_json app |})
    else
      Some {| index := index app; solution := solution app;
              stats := stats app; result := r; buttons := bs';
              message := message app; guess := g';
              stats_json := stats_json app |}.
Proof.
  intros Hc Hfull Hknown Hcs Hub.
  unfold check_input, current_word, current_guess. rewrite Hc.
  cbn [mbind option_bind].
  rewrite bool_decide_eq_false_2 by done.
  assert (bool_decide
            (Py.lower (Py.join (name <$> row_at (row_start c)
                                  (slots (guess app)))) ∉ Ta)
          && bool_decide
               (Py.lower (Py.join (name <$> row_at (row_start c)
                                     (slots (guess app)))) ∉ La) = false)
    as ->.
  { apply andb_false_iff.
    destruct Hknown; [left | right]; apply bool_decide_eq_false_2;
      naive_solver. }
  rewrite Hcs. cbn [mbind option_bind]. rewrite Hub. done.
Qed.

(** X12.  In a game, submitting a complete row whose word is in a list
    but is not the solution, before the last row: [check_input] returns,
    the game goes on with the cursor on the first cell of the next row, and
    neither the statistics nor the file nor the message change. *)
Theorem check_input_next_row (La Ta : list string) (app : WordleApp)
    (c : nat) :
  game_inv app → result app = None → current (guess app) = Some c →
  String.length (solution app) = COLUMN_SIZE →
  "" ∉ name <$> row_at (row_start c) (slots (guess app)) →
  Py.lower (Py.join (name <$> row_at (row_start c) (slots (guess app)))) ∈ Ta
  ∨ Py.lower (Py.join (name <$> row_at (row_start c) (slots (guess app)))) ∈ La →
  name <$> row_at (row_start c) (slots (guess app))
    ≠ Py.chars (solution app) →
  c < COLUMN_SIZE * ROW_SIZE - 1 →
  ∃ app', check_input La Ta app = Some app' ∧
    result app' = None ∧
    current (guess app') = Some (c + 1) ∧
    c + 1 = row_start c + COLUMN_SIZE ∧
    stats app' = stats app ∧ stats_json app' = stats_json app ∧
    message app' = message app.
Proof.
  intros Hinv Hres Hc Hsol Hfull Hknown Hne Hlt.
  destruct (scoring_runs _ _ Hinv Hres Hc Hfull Hsol)
    as (r & g' & bs' & Hcs & Hub & Hr & Hf).
  destruct (scored_facts _ _ _ _ _ Hinv Hres Hc Hfull Hcs Hub)
    as (Hlast & Hcur & _).
  rewrite (check_input_scoring La Ta app c r g' bs') by done.
  destruct r as [[|]|].
  - exfalso. apply Hne. symmetry. by apply Hr.
  - specialize (Hf eq_refl). lia.
  - eexists. split; [done |]. simpl. split_and!; try done.
    unfold COLUMN_SIZE in *. lia.
Qed.

(** X13.  In a game, submitting on the last row a complete row whose word
    is in a list but is not the solution: [check_input] returns with the
    result [False] and the losing message that names the solution; the win
    counts are unchanged, the record of the day is written to the file, and
    from then on a pressed button changes nothing. *)
Theorem check_input_lost (La Ta : list string) (app : WordleApp) (c : nat) :
  game_inv app → result app = None → current (guess app) = Some c →
  String.length (solution app) = COLUMN_SIZE →
  "" ∉ name <$> row_at (row_start c) (slots (guess app)) →
  Py.lower (Py.join (name <$> row_at (row_start c) (slots (guess app)))) ∈ Ta
  ∨ Py.lower (Py.join (name <$> row_at (row_start c) (slots (guess app)))) ∈ La →
  name <$> row_at (row_start c) (slots (guess app))
    ≠ Py.chars (solution app) →
  COLUMN_SIZE * ROW_SIZE - 1 ≤ c →
  ∃ app', check_input La Ta app = Some app' ∧
    result app' = Some false ∧
    current (guess app') = Some c ∧
    message app'
    = "You Lose! The answer is:" +:+ newline +:+ solution app +:+ newline
      +:+ "Press 'c' to copy the result." ∧
    Stats.stats (stats app') = Stats.stats (stats app) ∧
    Stats.last_played (stats app') = Some (index app) ∧
    Stats.last_result (stats app') = Some (Some false) ∧
    stats_json app' = Some (stats app') ∧
    ∀ sender, handle_button_pressed La Ta sender app' = Some app'.
Proof.
  intros Hinv Hres Hc Hsol Hfull Hknown Hne Hge.
  destruct (scoring_runs _ _ Hinv Hres Hc Hfull Hsol)
    as (r & g' & bs' & Hcs & Hub & Hr & Hf).
  destruct (scored_facts _ _ _ _ _ Hinv Hres Hc Hfull Hcs Hub)
    as (Hlast & Hcur & Hr29 & _).
  rewrite (check_input_scoring La Ta app c r g' bs') by done.
  destruct r as [[|]|].
  - exfalso. apply Hne. symmetry. by apply Hr.
  - unfold save_statistics, show_result, set_message.
    cbn [result mbind option_bind guess index solution stats buttons message
         stats_json].
    eexists. split; [done |]. cbn [result guess message stats stats_json
      Stats.stats Stats.last_played Stats.last_result].
    split_and!; done.
  - specialize (Hr29 eq_refl). lia.
Qed.

Lemma check_input_next_row_witness :
  ∃ app, after (Py.chars "LLAMA") = Some app ∧
  ∃ app', check_input ["allow"] ["llama"] app = Some app' ∧
    result app' = None ∧
    current (guess app') = Some (4 + 1) ∧
    4 + 1 = row_start 4 + COLUMN_SIZE ∧
    stats app' = stats app ∧ stats_json app' = stats_json app ∧
    message app' = message app.
Proof.
  eexists. split; [vm_compute; reflexivity |].
  apply (check_input_next_row ["allow"] ["llama"] _ 4).
  - apply (after_inv (Py.chars "LLAMA")); [buttons | vm_compute; reflexivity].
  - reflexivity.
  - reflexivity.
  - reflexivity.
  - vm_compute. intros H. repeat (apply elem_of_cons in H as [H | H];
      [discriminate H |]). by apply elem_of_nil in H.
  - left. vm_compute. left.
  - vm_compute. discriminate.
  - vm_compute. lia.
Defined.

Lemma check_input_lost_witness :
  ∃ app,
    after (submit "LLAMA" ++ submit "LLAMA" ++ submit "LLAMA"
           ++ submit "LLAMA" ++ submit "LLAMA" ++ Py.chars "LLAMA")
      = Some app ∧
  ∃ app', check_input ["allow"] ["llama"] app = Some app' ∧
    result app' = Some false ∧
    current (guess app') = Some 29 ∧
    message app'
    = "You Lose! The answer is:" +:+ newline +:+ solution app +:+ newline
      +:+ "Press 'c' to copy the result." ∧
    Stats.stats (stats app') = Stats.stats (stats app) ∧
    Stats.last_played (stats app') = Some (index app) ∧
    Stats.last_result (stats app') = Some (Some false) ∧
    stats_json app' = Some (stats app') ∧
    ∀ sender, handle_button_pressed ["allow"] ["llama"] sender app'
              = Some app'.
Proof.
  eexists. split; [vm_compute; reflexivity |].
  apply (check_input_lost ["allow"] ["llama"] _ 29).
  - apply (after_inv (submit "LLAMA" ++ submit "LLAMA" ++ submit "LLAMA"
                      ++ submit "LLAMA" ++ submit "LLAMA"
                      ++ Py.chars "LLAMA"));
      [vm_compute; buttons | vm_compute; reflexivity].
  - reflexivity.
  - reflexivity.
  - reflexivity.
  - vm_compute. intros H. repeat (apply elem_of_cons in H as [H | H];
      [discriminate H |]). by apply elem_of_nil in H.
  - left. vm_compute. left.
  - vm_compute. discriminate.
  - vm_compute. lia.
Defined.

Lemma index_pred {A} (l : list A) n :
  n < length l → Py.index l (Z.of_nat (n + 1) - 1) = Some n.
Proof.
  intros Hn. unfold Py.index. rewrite decide_True by lia. f_equal. lia.
Qed.

(** The rows that count after a row was scored in a game. *)
Lemma scored_rows app c r g' bs' :
  game_inv app → result app = None → current (guess app) = Some c →
  "" ∉ name <$> row_at (row_start c) (slots (guess app)) →
  check_solution (solution app) (guess app) = Some (r, g') →
  update_buttons (row_at (row_start c) (slots g')) (buttons app) = Some bs' →
  concat (valid_guesses g') = take (row_start c + COLUMN_SIZE) (slots g') ∧
  length (valid_guesses g') = c / COLUMN_SIZE + 1.
Proof.
  intros Hinv Hres Hc Hfull Hcs Hub.
  destruct (scored_facts _ _ _ _ _ Hinv Hres Hc Hfull Hcs Hub)
    as (Hlast & _ & _ & Hlen & Hscored & Hrest & _).
  destruct Hinv as (c0 & Hc0 & Hlt & _).
  assert (c0 = c) as -> by congruence.
  destruct (valid_guesses_filled g' (row_start c + COLUMN_SIZE))
    as [Hcat Hcount].
  - intros i b Hi Hb. by eapply scored_cell_nonempty, Hscored.
  - intros i b Hi Hb. by rewrite (Hrest i b).
  - split; [done |]. rewrite Hcount, length_take, Hlen.
    unfold row_start, COLUMN_SIZE, ROW_SIZE in *. lia.
Qed.

(** X14.  In a game, submitting the solution on the row of the cursor
    counts one more win in the bucket of that row (the first row is bucket
    0) and leaves the other buckets alone; the attempts of the exported
    text are the number of that row, counted from 1; and the statistics in
    memory are the ones written to the file. *)
Theorem check_input_win_stats (La Ta : list string) (app : WordleApp)
    (c : nat) :
  game_inv app → result app = None → current (guess app) = Some c →
  name <$> row_at (row_start c) (slots (guess app))
    = Py.chars (solution app) →
  Py.lower (solution app) ∈ Ta ∨ Py.lower (solution app) ∈ La →
  length (Stats.stats (stats app)) = ROW_SIZE →
  ∃ app' x, check_input La Ta app = Some app' ∧
    result app' = Some true ∧
    Stats.stats (stats app) !! (c / COLUMN_SIZE) = Some x ∧
    Stats.stats (stats app')
    = <[c / COLUMN_SIZE := (x + 1)%Z]> (Stats.stats (stats app)) ∧
    copy_result_trials app' = Some (c / COLUMN_SIZE + 1) ∧
    stats_json app' = Some (stats app').
Proof.
  intros Hinv Hres Hc Hword Hknown Hstats.
  assert ("" ∉ name <$> row_at (row_start c) (slots (guess app))) as Hfull.
  { rewrite Hword. apply chars_no_empty. }
  destruct (row_typed _ _ Hinv Hres Hc Hfull) as [_ Hrow5].
  assert (String.length (solution app) = COLUMN_SIZE) as Hsol.
  { by rewrite <- chars_length, <- Hword, length_fmap. }
  destruct (scoring_runs _ _ Hinv Hres Hc Hfull Hsol)
    as (r & g' & bs' & Hcs & Hub & Hr & _).
  assert (r = Some true) as -> by (by apply Hr).
  destruct (scored_rows _ _ _ _ _ Hinv Hres Hc Hfull Hcs Hub)
    as [_ Hcount].
  rewrite (check_input_scoring La Ta app c (Some true) g' bs');
    [| done | done | by rewrite Hword, join_chars | done | done].
  assert (c / COLUMN_SIZE < length (Stats.stats (stats app))) as Hbucket.
  { destruct Hinv as (c0 & Hc0 & Hlt & _).
    assert (c0 = c) as -> by congruence.
    rewrite Hstats. unfold COLUMN_SIZE, ROW_SIZE in *. lia. }
  destruct (lookup_lt_is_Some_2 _ _ Hbucket) as [x Hx].
  unfold save_statistics, show_result, set_message.
  cbn [result guess stats index solution buttons message stats_json].
  rewrite Hcount, index_pred by done. cbn [mbind option_bind].
  rewrite Hx. cbn [mbind option_bind].
  eexists _, x. split; [done |].
  unfold copy_result_trials.
  cbn [result guess stats stats_json Stats.stats]. rewrite Hcount. done.
Qed.

Lemma check_input_win_stats_witness :
  ∃ app, after (submit "LLAMA" ++ Py.chars "ALLOW") = Some app ∧
  ∃ app' x, check_input ["allow"] ["llama"] app = Some app' ∧
    result app' = Some true ∧
    Stats.stats (stats app) !! (9 / COLUMN_SIZE) = Some x ∧
    Stats.stats (stats app')
    = <[9 / COLUMN_SIZE := (x + 1)%Z]> (Stats.stats (stats app)) ∧
    copy_result_trials app' = Some (9 / COLUMN_SIZE + 1) ∧
    stats_json app' = Some (stats app').
Proof.
  eexists. split; [vm_compute; reflexivity |].
  apply (check_input_win_stats ["allow"] ["llama"] _ 9).
  - apply (after_inv (submit "LLAMA" ++ Py.chars "ALLOW"));
      [vm_compute; buttons | vm_compute; reflexivity].
  - reflexivity.
  - reflexivity.
  - reflexivity.
  - right. vm_compute. left.
  - reflexivity.
Defined.

(** * Saving a finished day and loading it again *)

Lemma chars_join_singles (l : list string) :
  Forall (λ x, ∃ c, x = String c EmptyString) l → Py.chars (Py.join l) = l.
Proof.
  induction 1 as [|x l [c ->] _ IH]; [done |].
  change (Py.chars (Py.join (String c EmptyString :: l)))
    with (String c EmptyString :: Py.chars (Py.join l)).
  by rewrite IH.
Qed.

Lemma marked_digit b :
  marked b →
  (∃ c, Py.str_status (status b) = String c EmptyString) ∧
  Py.int_digit (Py.str_status (status b)) = status b.
Proof.
  intros [-> | [-> | ->]]; (split; [eexists |]); vm_compute; reflexivity.
Qed.

Lemma stored_cell_scored b :
  scored_cell b → stored_cell (name b, Py.str_status (status b)) = b.
Proof.
  intros (_ & Hl & Hm). unfold stored_cell. cbn [fst snd].
  destruct (marked_digit b Hm) as [_ ->]. destruct b. simpl in *. by subst.
Qed.

(** The strings that [save_statistics] stores for scored cells bring the
    same cells back. *)
Lemma stored_cells_scored (cells : list Letter) :
  Forall scored_cell cells →
  length cells ≤ COLUMN_SIZE * ROW_SIZE →
  stored_ok (Py.join (name <$> cells))
            (Py.join (Py.str_status ∘ status <$> cells)) ∧
  stored_cells (Py.join (name <$> cells))
               (Py.join (Py.str_status ∘ status <$> cells)) = cells ∧
  String.length (Py.join (name <$> cells)) = length cells.
Proof.
  intros Hcells Hlen.
  assert (Py.chars (Py.join (name <$> cells)) = name <$> cells) as Hn.
  { apply chars_join_singles, Forall_fmap.
    eapply Forall_impl; [exact Hcells |]. intros b (Hk & _).
    by apply key_single. }
  assert (Py.chars (Py.join (Py.str_status ∘ status <$> cells))
          = Py.str_status ∘ status <$> cells) as Hs.
  { apply chars_join_singles, Forall_fmap.
    eapply Forall_impl; [exact Hcells |]. intros b (_ & _ & Hm).
    by apply marked_digit. }
  assert (String.length (Py.join (name <$> cells)) = length cells) as Hl1
    by (by rewrite <- chars_length, Hn, length_fmap).
  assert (String.length (Py.join (Py.str_status ∘ status <$> cells))
          = length cells) as Hl2
    by (by rewrite <- chars_length, Hs, length_fmap).
  split_and!; try done.
  - unfold stored_ok. rewrite Hn, Hs, Hl1, Hl2. split_and!; try done.
    + apply Forall_fmap. eapply Forall_impl; [exact Hcells |].
      by intros b (Hk & _).
    + apply Forall_fmap. eapply Forall_impl; [exact Hcells |].
      intros b (_ & _ & Hm). simpl.
      destruct (marked_digit b Hm) as [_ ->]. destruct Hm as [-> | [-> | ->]];
        eauto.
  - unfold stored_cells. rewrite Hn, Hs. clear -Hcells.
    induction Hcells as [|b l Hb _ IH]; [done |]. csimpl.
    rewrite IH. f_equal. by apply stored_cell_scored.
Qed.

Lemma rank_valid_inj (b1 b2 : Letter) :
  status b1 = None ∨ marked b1 → status b2 = None ∨ marked b2 →
  rank (status b1) = rank (status b2) → status b1 = status b2.
Proof.
  unfold marked, ABSENT, PRESENT, CORRECT.
  intros [-> | [-> | [-> | ->]]] [-> | [-> | [-> | ->]]]; simpl; intros ?;
    done || lia.
Qed.

(** Two keyboards with the same keys that both show what the same scored
    cells give are the same keyboard. *)
Lemma keyboard_determined (bs1 bs2 : gmap string Letter) cells :
  dom bs1 = dom bs2 →
  (∀ k b, bs1 !! k = Some b → key_state k b cells) →
  (∀ k b, bs2 !! k = Some b → key_state k b cells) →
  bs1 = bs2.
Proof.
  intros Hdom H1 H2. apply map_eq. intros k.
  destruct (bs1 !! k) as [b1|] eqn:Hb1.
  - assert (is_Some (bs2 !! k)) as [b2 Hb2].
    { apply elem_of_dom. rewrite <- Hdom. apply elem_of_dom. eauto. }
    rewrite Hb2. f_equal.
    destruct (H1 k b1 Hb1) as (Hn1 & Hl1 & Hv1 & Hr1).
    destruct (H2 k b2 Hb2) as (Hn2 & Hl2 & Hv2 & Hr2).
    pose proof (rank_valid_inj b1 b2 Hv1 Hv2) as Hs.
    destruct b1, b2. simpl in *. subst. f_equal. apply Hs. congruence.
  - symmetry. apply not_elem_of_dom. rewrite <- Hdom.
    by apply not_elem_of_dom.
Qed.

Lemma save_statistics_record a a' :
  save_statistics a = Some a' →
  ∃ data,
    a' = {| index := index a; solution := solution a; stats := data;
            result := result a; buttons := buttons a;
            message := message a; guess := guess a;
            stats_json := Some data |} ∧
    Stats.last_played data = Some (index a) ∧
    Stats.last_guesses data
    = Some (Py.join (name <$> concat (valid_guesses (guess a))),
            Py.join (Py.str_status ∘ status
                       <$> concat (valid_guesses (guess a)))) ∧
    Stats.last_result data = Some (result a).
Proof.
  unfold save_statistics. intros H.
  match type of H with
  | ?m ≫= _ = _ => destruct m as [stats1|]; [| done]
  end.
  cbn [mbind option_bind] in H. simplify_eq.
  eexists. split; [done |]. cbn [Stats.last_played Stats.last_guesses
    Stats.last_result]. by rewrite !join_chars.
Qed.

(** X15.  Round trip through the statistics file: when a submission ends
    a game, starting the application again on the same day from the file it
    wrote gives back the same state: the same grid, cell by cell, the same
    keyboard, result, message and statistics.  Only the cursor differs: it
    is back on the first cell. *)
Theorem reload_round_trip (La Ta : list string) (app app' : WordleApp)
    (w : string) :
  game_inv app → result app = None →
  check_input La Ta app = Some app' → is_Some (result app') →
  Py.getitem La (index app) = Some w → solution app = Py.upper w →
  on_mount La (index app) (stats_json app')
  = Some (set_guess {| slots := slots (guess app'); current := Some 0 |}
            app').
Proof.
  intros Hinv Hres Hrun [res Hres'] Hw Hsol.
  pose proof Hinv as (c & Hc & Hlt & _).
  set (word := name <$> row_at (row_start c) (slots (guess app))).
  (* only a scored submission sets the result *)
  assert ("" ∉ word) as Hfull.
  { intros He. revert Hrun. unfold check_input, current_word, current_guess.
    rewrite Hc. simpl. fold word. rewrite bool_decide_eq_true_2 by done.
    intros ?. simplify_eq. simpl in Hres'. congruence. }
  assert (Py.lower (Py.join word) ∈ Ta ∨ Py.lower (Py.join word) ∈ La)
    as Hknown.
  { destruct (decide (Py.lower (Py.join word) ∈ Ta)); [by left |].
    destruct (decide (Py.lower (Py.join word) ∈ La)); [by right |].
    exfalso. revert Hrun. unfold check_input, current_word, current_guess.
    rewrite Hc. simpl. fold word. rewrite bool_decide_eq_false_2 by done.
    rewrite !bool_decide_eq_true_2 by done. simpl.
    intros ?. simplify_eq. simpl in Hres'. congruence. }
  destruct (check_input_scored_inv La Ta app c app' Hc Hfull Hknown Hrun)
    as (r & g' & bs' & Hcs & Hub & Hg & Hb & Hr & _).
  rewrite (check_input_scoring La Ta app c r g' bs') in Hrun by done.
  rewrite Hres' in Hr. subst r.
  apply save_statistics_record in Hrun
    as (data & Happ' & Hplayed & Hguesses & Hresult).
  cbn [show_result set_message index solution result buttons message guess]
    in Happ', Hplayed, Hguesses, Hresult.
  destruct (scored_facts _ _ _ _ _ Hinv Hres Hc Hfull Hcs Hub)
    as (Hlast & _ & _ & Hlen & Hscored & Hrest & Hdom & Hkeys).
  destruct (scored_rows _ _ _ _ _ Hinv Hres Hc Hfull Hcs Hub) as [Hcat _].
  rewrite Hcat in Hguesses.
  set (n := row_start c + COLUMN_SIZE) in *.
  assert (n ≤ length (slots g')) as Hn.
  { rewrite Hlen. unfold n, row_start, COLUMN_SIZE, ROW_SIZE in *. lia. }
  destruct (stored_cells_scored (take n (slots g')))
    as (Hok & Hcells & Hletters).
  { apply Forall_lookup_2. intros i b Hb0.
    apply lookup_take_Some in Hb0 as [Hb0 Hi]. by eapply Hscored. }
  { rewrite length_take, <- Hlen. lia. }
  destruct (on_mount_replay La (index app) w data
              (Py.join (name <$> take n (slots g')))
              (Py.join (Py.str_status ∘ status <$> take n (slots g')))
              (Some res) Hw) as (bs2 & Hbs2 & Hmount);
    [rewrite Hplayed; simpl; lia | exact Hguesses | exact Hresult
    | exact Hok |].
  rewrite Happ'. cbn [stats_json]. rewrite Hmount. f_equal.
  unfold show_result, set_message, set_guess.
  cbn [index solution stats result buttons message guess stats_json slots].
  rewrite Hcells, Hletters, length_take, Nat.min_l, Hsol by done.
  f_equal.
  - (* the keyboard *)
    apply (keyboard_determined _ _ (take n (slots g'))).
    + by rewrite (update_buttons_dom _ _ _ Hbs2), Hdom.
    + intros k b Hk.
      assert (is_Some (buttons_new !! k)) as [b0 Hb0].
      { apply elem_of_dom. rewrite <- (update_buttons_dom _ _ _ Hbs2).
        apply elem_of_dom. eauto. }
      pose proof (buttons_new_lookup _ _ Hb0) as ->.
      rewrite Hcells in Hbs2.
      destruct (update_buttons_key _ _ _ k (Letter_new k) Hbs2)
        as (b' & Hb' & Hn' & Hl' & Hv' & Hr'); [| done | by left |].
      { apply Forall_lookup_2. intros i x Hx.
        apply lookup_take_Some in Hx as [Hx Hi].
        by destruct (Hscored i x Hi Hx) as (_ & _ & ?). }
      simplify_eq. split_and!; try done. rewrite Hr'. simpl.
      pose proof (observed_rank_ge k (take n (slots g'))). lia.
    + done.
  - (* the grid *)
    f_equal. etrans; [| apply (take_drop n (slots g'))]. f_equal.
    apply list_eq. intros i.
    rewrite lookup_drop.
    destruct (decide (i < COLUMN_SIZE * ROW_SIZE - n)) as [Hi | Hi].
    + rewrite lookup_replicate_2 by done.
      destruct (lookup_lt_is_Some_2 (slots g') (n + i)) as [b Hb0]; [lia |].
      rewrite Hb0. f_equal. symmetry. apply (Hrest (n + i)); [lia | done].
    + rewrite (lookup_ge_None_2 (slots g')) by lia.
      apply lookup_replicate_None. lia.
Qed.

Lemma reload_round_trip_witness :
  ∃ app app',
    after (submit "LLAMA" ++ Py.chars "ALLOW") = Some app ∧
    check_input ["allow"] ["llama"] app = Some app' ∧
    on_mount ["allow"] (index app) (stats_json app')
    = Some (set_guess {| slots := slots (guess app'); current := Some 0 |}
              app').
Proof.
  eexists _, _. split; [vm_compute; reflexivity |].
  split; [vm_compute; reflexivity |].
  apply (reload_round_trip ["allow"] ["llama"] _ _ "allow").
  - apply (after_inv (submit "LLAMA" ++ Py.chars "ALLOW"));
      [vm_compute; buttons | vm_compute; reflexivity].
  - reflexivity.
  - vm_compute. reflexivity.
  - vm_compute. eauto.
  - reflexivity.
  - reflexivity.
Defined.

(** * Starting without a statistics file *)

(** X16.  Without a statistics file [on_mount] succeeds exactly when the
    day index is inside the solution list, and then gives the fresh game of
    that day's word in capitals: empty grid, cursor on the first cell,
    keyboard unset, no result, the initial statistics.  A negative index
    does pick a word from the end of the list, but then the replay of the
    stored guesses is tried and fails, as there are none. *)
Theorem on_mount_no_file (La : list string) (today : Z) :
  on_mount La today None
  = if decide (0 ≤ today < Z.of_nat (length La))%Z then
      w ← La !! Z.to_nat today;
      Some {| index := today; solution := Py.upper w;
              stats := {| Stats.played := 0;
                          Stats.stats := [0; 0; 0; 0; 0; 0]%Z;
                          Stats.last_played := None;
                          Stats.last_guesses := None;
                          Stats.last_result := Some None |};
              result := None; buttons := buttons_new; message := "";
              guess := empty_grid; stats_json := None |}
    else None.
Proof.
  unfold on_mount, Py.getitem, Py.index.
  destruct (decide (0 ≤ today < _)%Z) as [Hin | Hout].
  - cbn [mbind option_bind].
    destruct (La !! Z.to_nat today) as [w|]; [| done].
    cbn [mbind option_bind]. unfold init_game. cbn [stats index default].
    rewrite bool_decide_eq_true_2 by (simpl; lia). done.
  - destruct (decide (- Z.of_nat (length La) ≤ today < 0)%Z) as [Hneg | ?];
      [| done].
    cbn [mbind option_bind].
    destruct (La !! _) as [w|]; [| done].
    cbn [mbind option_bind]. unfold init_game. cbn [stats index default].
    rewrite bool_decide_eq_false_2 by (simpl; lia). done.
Qed.

(** * What the statistics panel and the exported text show *)

Lemma total_win_insert (l : list Z) i x :
  l !! i = Some x →
  foldr Z.add 0%Z (<[i := (x + 1)%Z]> l) = (foldr Z.add 0%Z l + 1)%Z.
Proof.
  revert i. induction l as [|y l IH]; intros [|i] Hi; simplify_eq/=.
  - lia.
  - rewrite (IH i) by done. lia.
Qed.

Lemma save_statistics_win a k x :
  result a = Some true → length (valid_guesses (guess a)) = k + 1 →
  Stats.stats (stats a) !! k = Some x →
  save_statistics a
  = Some {| index := index a; solution := solution a;
            stats :=
              {| Stats.played := (Stats.played (stats a) + 1 + 1)%Z;
                 Stats.stats := <[k := (x + 1)%Z]> (Stats.stats (stats a));
                 Stats.last_played := Some (index a);
                 Stats.last_guesses :=
                   Some (Py.join (name <$> concat (valid_guesses (guess a))),
                         Py.join (Py.str_status ∘ status
                                    <$> concat (valid_guesses (guess a))));
                 Stats.last_result := Some (Some true) |};
            result := Some true; buttons := buttons a;
            message := message a; guess := guess a;
            stats_json :=
              Some {| Stats.played := (Stats.played (stats a) + 1 + 1)%Z;
                      Stats.stats :=
                        <[k := (x + 1)%Z]> (Stats.stats (stats a));
                      Stats.last_played := Some (index a);
                      Stats.last_guesses :=
                        Some (Py.join
                                (name <$> concat (valid_guesses (guess a))),
                              Py.join
                                (Py.str_status ∘ status
                                   <$> concat (valid_guesses (guess a))));
                      Stats.last_result := Some (Some true) |} |}.
Proof.
  intros Hr Hk Hx. unfold save_statistics. rewrite Hr, Hk.
  rewrite index_pred by (by eapply lookup_lt_Some).
  cbn [mbind option_bind]. rewrite Hx. cbn [mbind option_bind].
  by rewrite !join_chars.
Qed.

(** X17.  After a win in a game the statistics panel shows the row of the
    win: [current_streak] is the number of that row counted from 0, so the
    one green bar is the bar of the attempts used; and the sum of the win
    counts has grown by one. *)
Theorem render_after_win (La Ta : list string) (app : WordleApp) (c : nat) :
  game_inv app → result app = None → current (guess app) = Some c →
  name <$> row_at (row_start c) (slots (guess app))
    = Py.chars (solution app) →
  Py.lower (solution app) ∈ Ta ∨ Py.lower (solution app) ∈ La →
  length (Stats.stats (stats app)) = ROW_SIZE →
  ∃ app', check_input La Ta app = Some app' ∧
    current_streak (stats app') = Some (Z.of_nat (c / COLUMN_SIZE)) ∧
    (∀ i, bar_highlighted (stats app') i
          = Some (bool_decide (i = Z.of_nat (c / COLUMN_SIZE) + 1)%Z)) ∧
    total_win (stats app') = (total_win (stats app) + 1)%Z.
Proof.
  intros Hinv Hres Hc Hword Hknown Hstats.
  assert ("" ∉ name <$> row_at (row_start c) (slots (guess app))) as Hfull.
  { rewrite Hword. apply chars_no_empty. }
  destruct (row_typed _ _ Hinv Hres Hc Hfull) as [_ Hrow5].
  assert (String.length (solution app) = COLUMN_SIZE) as Hsol.
  { by rewrite <- chars_length, <- Hword, length_fmap. }
  destruct (scoring_runs _ _ Hinv Hres Hc Hfull Hsol)
    as (r & g' & bs' & Hcs & Hub & Hr & _).
  assert (r = Some true) as -> by (by apply Hr).
  destruct (scored_rows _ _ _ _ _ Hinv Hres Hc Hfull Hcs Hub)
    as [Hcat Hcount].
  destruct (scored_facts _ _ _ _ _ Hinv Hres Hc Hfull Hcs Hub)
    as (_ & _ & _ & Hlen & Hscored & _).
  destruct Hinv as (c0 & Hc0 & Hlt & _).
  assert (c0 = c) as -> by congruence.
  assert (c / COLUMN_SIZE < length (Stats.stats (stats app))) as Hbucket.
  { rewrite Hstats. unfold COLUMN_SIZE, ROW_SIZE in *. lia. }
  destruct (lookup_lt_is_Some_2 _ _ Hbucket) as [x Hx].
  rewrite (check_input_scoring La Ta app c (Some true) g' bs');
    [| done | done | by rewrite Hword, join_chars | done | done].
  rewrite (save_statistics_win _ (c / COLUMN_SIZE) x); [| done..].
  eexists. split; [done |].
  cbn [stats show_result set_message guess index].
  destruct (stored_cells_scored (take (row_start c + COLUMN_SIZE) (slots g')))
    as (_ & _ & Hletters).
  { apply Forall_lookup_2. intros i b Hb0.
    apply lookup_take_Some in Hb0 as [Hb0 Hi]. by eapply Hscored. }
  { rewrite length_take, Hlen. lia. }
  rewrite length_take, Hlen in Hletters.
  assert (current_streak
            {| Stats.played := (Stats.played (stats app) + 1 + 1)%Z;
               Stats.stats :=
                 <[c / COLUMN_SIZE := (x + 1)%Z]> (Stats.stats (stats app));
               Stats.last_played := Some (index app);
               Stats.last_guesses :=
                 Some (Py.join (name <$> concat (valid_guesses g')),
                       Py.join (Py.str_status ∘ status
                                  <$> concat (valid_guesses g')));
               Stats.last_result := Some (Some true) |}
          = Some (Z.of_nat (c / COLUMN_SIZE))) as Hstreak.
  { unfold current_streak.
    cbn [Stats.last_result Stats.last_guesses mbind option_bind].
    rewrite Hcat, Hletters. f_equal.
    unfold row_start, COLUMN_SIZE, ROW_SIZE in *. lia. }
  split_and!.
  - done.
  - intros i. unfold bar_highlighted. rewrite Hstreak.
    cbn [Stats.last_result mbind option_bind].
    by rewrite (bool_decide_eq_true_2 (Some true ≠ None)), andb_true_r.
  - unfold total_win. cbn [Stats.stats]. by apply total_win_insert.
Qed.

Lemma render_after_win_witness :
  ∃ app, after (submit "LLAMA" ++ Py.chars "ALLOW") = Some app ∧
  ∃ app', check_input ["allow"] ["llama"] app = Some app' ∧
    current_streak (stats app') = Some (Z.of_nat (9 / COLUMN_SIZE)) ∧
    (∀ i, bar_highlighted (stats app') i
          = Some (bool_decide (i = Z.of_nat (9 / COLUMN_SIZE) + 1)%Z)) ∧
    total_win (stats app') = (total_win (stats app) + 1)%Z.
Proof.
  eexists. split; [vm_compute; reflexivity |].
  apply (render_after_win ["allow"] ["llama"] _ 9).
  - apply (after_inv (submit "LLAMA" ++ Py.chars "ALLOW"));
      [vm_compute; buttons | vm_compute; reflexivity].
  - reflexivity.
  - reflexivity.
  - reflexivity.
  - right. vm_compute. left.
  - reflexivity.
Defined.


Lemma BLOCKS_marked b : marked b → is_Some (BLOCKS (status b)).
Proof. intros [-> | [-> | ->]]; by eexists. Qed.

Lemma game_over_rows app c :
  game_inv app → is_Some (result app) → current (guess app) = Some c →
  length (valid_guesses (guess app)) = c / COLUMN_SIZE + 1 ∧
  (∀ r row, valid_guesses (guess app) !! r = Some row →
            row = row_at (r * COLUMN_SIZE) (slots (guess app)) ∧
            Forall scored_cell row).
Proof.
  intros (c0 & Hc0 & Hlt & Hlen & Hscored & _ & _ & Hrest & _) Hres Hc.
  assert (c0 = c) as -> by congruence.
  specialize (Hrest Hres). unfold scored_count in *.
  destruct Hres as [b Hres]. rewrite Hres in *.
  assert (row_start c + COLUMN_SIZE ≤ length (slots (guess app))) as Hn.
  { rewrite Hlen. unfold row_start, COLUMN_SIZE, ROW_SIZE in *. lia. }
  assert (valid_guesses (guess app)
          = partition (take (row_start c + COLUMN_SIZE) (slots (guess app)))
              COLUMN_SIZE) as Hvalid.
  { unfold valid_guesses. f_equal. apply takewhile_take.
    - intros i x Hi Hx. apply bool_decide_eq_true_2, scored_cell_nonempty.
      by eapply Hscored.
    - intros i x Hi Hx. apply bool_decide_eq_false_2.
      intros Hne. apply Hne. by eapply Hrest. }
  split.
  - destruct (valid_guesses_filled (guess app) (row_start c + COLUMN_SIZE))
      as [_ Hcount].
    + intros i x Hi Hx. apply scored_cell_nonempty. by eapply Hscored.
    + done.
    + rewrite Hcount, length_take.
      unfold row_start, COLUMN_SIZE, ROW_SIZE in *. lia.
  - intros r row. rewrite Hvalid.
    unfold partition, row_at, row_start, COLUMN_SIZE, ROW_SIZE in *.
    rewrite partition_fuel_lookup by done.
    rewrite length_take. case_decide as Hr; [| done]. intros [= <-].
    rewrite skipn_firstn_comm, take_take.
    replace (5 `min` (c / 5 * 5 + 5 - r * 5)) with 5 by lia.
    split; [done |].
    apply Forall_lookup_2. intros i x Hx. unfold row_at in Hx.
    apply lookup_take_Some in Hx as [Hx Hi]. rewrite lookup_drop in Hx.
    eapply Hscored; [| done].
    unfold row_start, COLUMN_SIZE, ROW_SIZE in *. lia.
Qed.

(** X18.  Once a game is over the export of the result never fails on a
    cell without a state: the list it builds is the header with the day
    and the number of rows played (or x after a loss), an empty line, and
    one line for each row played, in order, made of one block for each of
    the five cells of that row, the block of the cell's state. *)
Theorem copy_result_game_over (app : WordleApp) (c : nat) :
  game_inv app → is_Some (result app) → current (guess app) = Some c →
  ∃ rows,
    copy_result_lines app
    = Some (("Wordle " +:+ pretty (index app) +:+ " " +:+
             (if result app is Some true
              then pretty (c / COLUMN_SIZE + 1) else "x") +:+ "/6")
              :: "" :: rows) ∧
    length rows = c / COLUMN_SIZE + 1 ∧
    ∀ r line, rows !! r = Some line →
      ∃ blocks, line = Py.join blocks ∧ length blocks = COLUMN_SIZE ∧
        Forall2 (λ cell block, BLOCKS (status cell) = Some block)
          (row_at (r * COLUMN_SIZE) (slots (guess app))) blocks.
Proof.
  intros Hinv Hres Hc.
  destruct (game_over_rows app c Hinv Hres Hc) as [Hcount Hrows].
  destruct Hinv as (c0 & Hc0 & Hlt & Hlen & _).
  assert (c0 = c) as -> by congruence.
  assert (is_Some (mapM (λ row : list Letter,
                           blocks ← mapM (BLOCKS ∘ status) row;
                           Some (Py.join blocks))
                     (valid_guesses (guess app)))) as [rows Hmap].
  { apply mapM_is_Some, Forall_lookup_2. intros r row Hr.
    destruct (Hrows r row Hr) as [_ Hcells].
    assert (is_Some (mapM (BLOCKS ∘ status) row)) as [blocks Hb].
    { apply mapM_is_Some. eapply Forall_impl; [exact Hcells |].
      intros b (_ & _ & Hm). by apply BLOCKS_marked. }
    unfold compose at 1. rewrite Hb. by eexists. }
  exists rows. unfold copy_result_lines. rewrite Hmap, Hcount.
  split; [done |].
  apply mapM_Some in Hmap.
  split; [by rewrite <- (Forall2_length _ _ _ Hmap) |].
  intros r line Hline.
  destruct (Forall2_lookup_r _ _ _ _ _ Hmap Hline) as (row & Hrow & Hf).
  destruct (Hrows r row Hrow) as [-> _].
  destruct (mapM (BLOCKS ∘ status) _) as [blocks |] eqn:Hb; [| done].
  injection Hf as <-. apply mapM_Some in Hb.
  exists blocks. split_and!; [done | | done].
  rewrite <- (Forall2_length _ _ _ Hb). unfold row_at.
  rewrite length_take, length_drop, Hlen.
  apply lookup_lt_Some in Hrow. rewrite Hcount in Hrow.
  unfold COLUMN_SIZE, ROW_SIZE in *. lia.
Qed.

Lemma copy_result_game_over_witness :
  ∃ app, after (submit "LLAMA" ++ submit "ALLOW") = Some app ∧
  ∃ rows,
    copy_result_lines app
    = Some (("Wordle " +:+ pretty (index app) +:+ " " +:+
             (if result app is Some true
              then pretty (9 / COLUMN_SIZE + 1) else "x") +:+ "/6")
              :: "" :: rows) ∧
    length rows = 9 / COLUMN_SIZE + 1 ∧
    ∀ r line, rows !! r = Some line →
      ∃ blocks, line = Py.join blocks ∧ length blocks = COLUMN_SIZE ∧
        Forall2 (λ cell block, BLOCKS (status cell) = Some block)
          (row_at (r * COLUMN_SIZE) (slots (guess app))) blocks.
Proof.
  eexists. split; [vm_compute; reflexivity |].
  apply (copy_result_game_over _ 9).
  - apply (after_inv (submit "LLAMA" ++ submit "ALLOW"));
      [vm_compute; buttons | vm_compute; reflexivity].
  - vm_compute. by eexists.
  - reflexivity.
Defined.


(** * Keys and buttons *)

Lemma key_letter k :
  is_Some (buttons_new !! k) →
  str_in k ascii_letters = true ∧ Py.upper k = k ∧
  str_in (Py.lower k) ascii_letters = true ∧ Py.upper (Py.lower k) = k ∧
  k ≠ "enter" ∧ k ≠ "backspace".
Proof.
  intros [b Hb]. unfold buttons_new in Hb.
  apply elem_of_list_to_map_2, list_elem_of_fmap in Hb as (k' & Heq & Hk).
  simplify_eq. revert k' Hk. apply Forall_forall.
  let keys := eval vm_compute in (concat (Py.chars <$> KEYBOARD)) in
  change (concat (Py.chars <$> KEYBOARD)) with keys.
  repeat (apply Forall_cons; split;
          [split_and!; solve [vm_compute; reflexivity | discriminate] |]).
  constructor.
Qed.

(** X19.  While a game goes on, typing on the keyboard does what the
    buttons on the screen do: the key of a letter, in upper or in lower
    case, is the press of the button of that letter, the enter key is the
    enter button, and ctrl+h is the backspace button; nothing is copied to
    the clipboard. *)
Theorem on_key_button (La Ta : list string) (app : WordleApp) (k : string) :
  result app = None → is_Some (buttons_new !! k) →
  on_key La Ta k app = pair None <$> handle_button_pressed La Ta k app ∧
  on_key La Ta (Py.lower k) app
    = pair None <$> handle_button_pressed La Ta k app ∧
  on_key La Ta "enter" app
    = pair None <$> handle_button_pressed La Ta "enter" app ∧
  on_key La Ta "ctrl+h" app
    = pair None <$> handle_button_pressed La Ta "backspace" app.
Proof.
  intros Hres (Hin & Hup & Hin' & Hup' & Hne & Hnb)%key_letter.
  unfold on_key, handle_button_pressed. rewrite Hres, Hin, Hin', Hup, Hup'.
  rewrite !(decide_False (P := k = _)) by done.
  split_and!.
  - by destruct (input_letter _ _).
  - by destruct (input_letter _ _).
  - change (str_in "enter" ascii_letters) with false. cbv iota.
    rewrite !(decide_True (P := "enter" = "enter")) by done.
    by destruct (check_input _ _ _).
  - change (str_in "ctrl+h" ascii_letters) with false. cbv iota.
    rewrite (decide_False (P := "ctrl+h" = "enter")) by done.
    rewrite (decide_True (P := "ctrl+h" = "ctrl+h")) by done.
    rewrite (decide_False (P := "backspace" = "enter")) by done.
    rewrite (decide_True (P := "backspace" = "backspace")) by done.
    by destruct (backspace_letter _).
Qed.

Lemma on_key_button_witness :
  ∃ app, after (Py.chars "LL") = Some app ∧
  on_key ["allow"] ["llama"] "A" app
    = pair None <$> handle_button_pressed ["allow"] ["llama"] "A" app ∧
  on_key ["allow"] ["llama"] (Py.lower "A") app
    = pair None <$> handle_button_pressed ["allow"] ["llama"] "A" app ∧
  on_key ["allow"] ["llama"] "enter" app
    = pair None <$> handle_button_pressed ["allow"] ["llama"] "enter" app ∧
  on_key ["allow"] ["llama"] "ctrl+h" app
    = pair None
        <$> handle_button_pressed ["allow"] ["llama"] "backspace" app.
Proof.
  eexists. split; [vm_compute; reflexivity |].
  apply (on_key_button ["allow"] ["llama"] _ "A").
  - reflexivity.
  - vm_compute. by eexists.
Defined.
